(** * GPS clock firmware (STM8S + MAX7219 + u-blox receiver): main.c

    A shallow embedding of the device-protocol layer of [main.c] and the
    properties its specification states about it.

    Conventions.
    - A C integer of width w is a [Z]; every conversion to a narrower or
      signed type is written out ([uint8], [uint16], [int8]).
    - A C array is a [list Z]; [a[i]] is [array_get a i] and
      [a[i] = v] is [array_set a i v].
    - A peripheral is the list of what was written to it, oldest first:
      the UART is the list of transmitted bytes, the display bus the list
      of (address, data) commands.
    - Hardware busy-wait loops (transmit complete, SPI flags, delays) are
      assumed to end; they have no effect on the data written. *)

From Stdlib Require Import ZArith List Lia Bool.
From stdpp Require Import base list.
From Equations Require Import Equations.
Import ListNotations.
Local Open Scope Z_scope.

(** ** Machine integers *)

(** Conversion to [uint8_t]. *)
Definition uint8 (x : Z) : Z := x mod 256.

(** Conversion to [uint16_t]. *)
Definition uint16 (x : Z) : Z := x mod 65536.

(** Conversion to [int8_t] (two's complement, as SDCC does). *)
Definition int8 (x : Z) : Z := (x + 128) mod 256 - 128.

(** [a[i]]; a read outside the array is undefined in C and yields 0 here. *)
Definition array_get (a : list Z) (i : Z) : Z := default 0 (a !! Z.to_nat i).

(** [a[i] = v]; nothing is modelled for a write outside the array. *)
Definition array_set (a : list Z) (i : Z) (v : Z) : list Z := <[Z.to_nat i := v]> a.

(** ** Serial transport to the GPS receiver *)

Module Uart.

(** [uart_send_blocking]: the byte loaded into [UART1->DR] is appended to
    the bytes on the wire. *)
Definition uart_send_blocking (tx : list Z) (byte : Z) : list Z := tx ++ [byte].

(** The [while (length > 0)] loop of [uart_send_stream_blocking]; [n] is the
    value of the [uint8_t] counter and [bytes] the memory the pointer
    designates. *)
Fixpoint uart_send_stream_loop (n : nat) (tx bytes : list Z) : list Z :=
  match n with
  | O => tx
  | S n' => uart_send_stream_loop n' (uart_send_blocking tx (array_get bytes 0)) (tl bytes)
  end.

(** [uart_send_stream_blocking(uint8_t* bytes, uint8_t length)]: the
    argument is converted to the parameter's type. *)
Definition uart_send_stream_blocking (tx bytes : list Z) (length : Z) : list Z :=
  uart_send_stream_loop (Z.to_nat (uint8 length)) tx bytes.

End Uart.

(** ** Checksum accumulator and protocol encoder *)

Module Ubx.
Import Uart.

(** [uint8_t checksum[2]]. *)
Definition checksum : Type := Z * Z.

(** [ubx_update_checksum]: [checksum[0] += value; checksum[1] += checksum[0]]. *)
Definition ubx_update_checksum (c : checksum) (value : Z) : checksum :=
  let a := uint8 (fst c + value) in
  (a, uint8 (snd c + a)).

(** The [for (uint16_t i = 0; i < length; ++i)] loop of
    [ubx_update_checksum_multi]: [n] iterations are left, [i] is the index. *)
Fixpoint ubx_update_checksum_loop (n : nat) (i : Z) (c : checksum) (data : list Z) : checksum :=
  match n with
  | O => c
  | S n' => ubx_update_checksum_loop n' (uint16 (i + 1)) (ubx_update_checksum c (array_get data i)) data
  end.

Definition ubx_update_checksum_multi (c : checksum) (data : list Z) (length : Z) : checksum :=
  ubx_update_checksum_loop (Z.to_nat (uint16 length)) 0 c data.

(** The checksum as the specification words it: a left fold of the
    per-byte update over the byte sequence, from (0,0). *)
Definition checksum_fold (bytes : list Z) : checksum :=
  fold_left ubx_update_checksum bytes (0, 0).

(** [uint8_t header[6]] of [ubx_send]. *)
Definition ubx_header (msgClass msgId length : Z) : list Z :=
  [0xB5; 0x62; msgClass; msgId; uint8 (Z.land length 0xFF); uint8 (Z.shiftr length 8)].

(** [ubx_send(msgClass, msgId, data, length)]; [tx] is what the UART has
    sent before the call, the result what it has sent after it. *)
Definition ubx_send (tx : list Z) (msgClass msgId : Z) (data : list Z) (length : Z) : list Z :=
  let header := ubx_header msgClass msgId length in
  let checksum0 : checksum := (0, 0) in
  let checksum1 := ubx_update_checksum_multi checksum0 (drop 2 header) (6 - 2) in
  let checksum2 := ubx_update_checksum_multi checksum1 data length in
  let tx1 := uart_send_stream_blocking tx header 6 in
  let tx2 := uart_send_stream_blocking tx1 data length in
  uart_send_stream_blocking tx2 [fst checksum2; snd checksum2] 2.

(** The payload macros of [ubxgps.h], which is not among the sources, are
    taken as parameters: each expands to the bytes of one field. *)
Section Payloads.
Variables UBX_VALUE_U8 UBX_VALUE_U16 UBX_VALUE_S16 UBX_VALUE_U32 UBX_VALUE_S32 : Z -> list Z.

(** [cfg_tp5_data] of [gps_init]. *)
Definition cfg_tp5_data : list Z :=
  UBX_VALUE_U8 0 ++ UBX_VALUE_U8 0 ++ UBX_VALUE_U16 0 ++
  UBX_VALUE_S16 50 ++ UBX_VALUE_S16 0 ++
  UBX_VALUE_U32 0 ++ UBX_VALUE_U32 1 ++ UBX_VALUE_U32 1000 ++ UBX_VALUE_U32 10000 ++
  UBX_VALUE_S32 0 ++ UBX_VALUE_U32 255.

(** [cfg_nav5_data] of [gps_init]. *)
Definition cfg_nav5_data : list Z :=
  UBX_VALUE_U16 63 ++ UBX_VALUE_U8 2 ++ UBX_VALUE_U8 3 ++
  UBX_VALUE_U32 0 ++ UBX_VALUE_U32 0 ++
  UBX_VALUE_U8 20 ++ UBX_VALUE_U8 180 ++
  UBX_VALUE_U16 100 ++ UBX_VALUE_U16 100 ++ UBX_VALUE_U16 100 ++ UBX_VALUE_U16 100 ++
  UBX_VALUE_U8 0 ++ UBX_VALUE_U8 60 ++
  UBX_VALUE_U32 0 ++ UBX_VALUE_U32 0 ++ UBX_VALUE_U32 0.

(** The time-pulse message of [gps_init]:
    [ubx_send(0x06, 0x31, cfg_tp5_data, sizeof(cfg_tp5_data))]. *)
Definition gps_init_tp5 (tx : list Z) : list Z :=
  ubx_send tx 0x06 0x31 cfg_tp5_data (Z.of_nat (length cfg_tp5_data)).

(** [gps_init]: the time-pulse message, then the navigation-mode one. *)
Definition gps_init (tx : list Z) : list Z :=
  ubx_send (gps_init_tp5 tx) 0x06 0x24 cfg_nav5_data (Z.of_nat (length cfg_nav5_data)).
End Payloads.

(** Modelled from the spec: the [UBX_VALUE_*] macros of [ubxgps.h]. A
    field of the protocol is little-endian (§3 and §6 give the length field
    so); its width is the one the macro's name states, and a signed value
    is sent in two's complement. *)
Fixpoint le_bytes (n : nat) (x : Z) : list Z :=
  match n with
  | O => []
  | S n' => Z.land x 0xFF :: le_bytes n' (Z.shiftr x 8)
  end.

(** Modelled from the spec: [UBX_VALUE_U8], one byte. *)
Definition U8 : Z -> list Z := le_bytes 1.

(** Modelled from the spec: [UBX_VALUE_U16], two bytes. *)
Definition U16 : Z -> list Z := le_bytes 2.

(** Modelled from the spec: [UBX_VALUE_S16], two bytes. *)
Definition S16 : Z -> list Z := le_bytes 2.

(** Modelled from the spec: [UBX_VALUE_U32], four bytes. *)
Definition U32 : Z -> list Z := le_bytes 4.

(** Modelled from the spec: [UBX_VALUE_S32], four bytes. *)
Definition S32 : Z -> list Z := le_bytes 4.

End Ubx.

(** ** Display driver: digit/segment planes *)

Module Max7219.

Definition kNumDigits : Z := 6.
Definition kNumSegments : Z := 8.

(** One display-bus command: [max7219_cmd(address, data)]. *)
Definition bus_cmd : Type := Z * Z.

(** [max7219_cmd]: the address byte and the data byte go out framed by the
    chip select; the command is appended to what the bus has carried. *)
Definition max7219_cmd (bus : list bus_cmd) (address data : Z) : list bus_cmd :=
  bus ++ [(uint8 address, uint8 data)].

(** The RAM the display code owns: [_segmentWiseData[kNumSegments]] and the
    function-static [waitIndicator] of [display_no_signal]. *)
Record memory : Type := Memory {
  _segmentWiseData : list Z;
  waitIndicator : Z
}.

(** Zero-initialised statics. *)
Definition memory_init : memory :=
  {| _segmentWiseData := [0; 0; 0; 0; 0; 0; 0; 0]; waitIndicator := 0 |}.

(** [digitMap[kNumSegments]] of [max7219_set_digit]: six initialisers, the
    remaining two entries are zero. *)
Definition digitMap : list Z := [0; 4; 3; 1; 5; 2; 0; 0].

(** The body of the loop of [max7219_set_digit] on one plane byte [p]:
    [if (segments & 0x01) p |= digitMask; else p &= ~digitMask;]. *)
Definition set_plane (digitMask segments p : Z) : Z :=
  if negb (Z.land segments 0x01 =? 0)
  then uint8 (Z.lor p digitMask)
  else uint8 (Z.land p (Z.lnot digitMask)).

(** The [for (uint8_t i = 0; i < kNumSegments; ++i)] loop of
    [max7219_set_digit]. *)
Fixpoint max7219_set_digit_loop (n : nat) (i digitMask segments : Z) (planes : list Z) : list Z :=
  match n with
  | O => planes
  | S n' =>
      max7219_set_digit_loop n' (uint8 (i + 1)) digitMask (Z.shiftr segments 1)
        (array_set planes i (set_plane digitMask segments (array_get planes i)))
  end.

(** [mappedDigit = digitMap[digitRegister - 1]]: the bit of a logical
    digit in every plane byte. *)
Definition mappedDigit (digitRegister : Z) : Z := array_get digitMap (digitRegister - 1).

(** [digitMask = (1<<mappedDigit)]. *)
Definition digitMask (digitRegister : Z) : Z := uint8 (Z.shiftl 1 (mappedDigit digitRegister)).

(** [max7219_set_digit(digitRegister, segments)]. *)
Definition max7219_set_digit (digitRegister segments : Z) (planes : list Z) : list Z :=
  max7219_set_digit_loop (Z.to_nat kNumSegments) 0 (digitMask digitRegister) segments planes.

(** [bcdMap[16]] of [max7219_set_digit_bcd]. *)
Definition bcdMap : list Z :=
  [0x3F; 0x06; 0x5B; 0x4F; 0x66; 0x6D; 0x7D; 0x07; 0x7F; 0x6F;
   0x40; 0x79; 0x76; 0x38; 0x73; 0x00].

(** The segment byte [max7219_set_digit_bcd] hands to [max7219_set_digit]. *)
Definition bcd_segments (value : Z) : Z :=
  let segments := array_get bcdMap (Z.land value 0xF) in
  uint8 (Z.lor segments (Z.land value 0x80)).

(** [max7219_set_digit_bcd(digitRegister, value)]. *)
Definition max7219_set_digit_bcd (digitRegister value : Z) (planes : list Z) : list Z :=
  max7219_set_digit digitRegister (bcd_segments value) planes.

(** The loop of [display_clear]. *)
Fixpoint display_clear_loop (n : nat) (i : Z) (planes : list Z) : list Z :=
  match n with
  | O => planes
  | S n' => display_clear_loop n' (uint8 (i + 1)) (array_set planes i 0)
  end.

Definition display_clear (planes : list Z) : list Z :=
  display_clear_loop (Z.to_nat kNumSegments) 0 planes.

(** The segments of logical digit [digitRegister] as the planes hold them:
    bit k of the result is the digit's bit in plane k. This is what the
    display shows for that digit once the planes are flushed. *)
Definition shown_segments (planes : list Z) (digitRegister : Z) : Z :=
  fold_right (fun p acc => Z.b2z (Z.testbit p (mappedDigit digitRegister)) + 2 * acc) 0 planes.

End Max7219.

(** ** Brightness controller *)

Module Brightness.
Import Max7219.

(** The two data registers of the converter, 8 bits each. *)
Record ADC1 : Type := Adc { DRL : Z; DRH : Z }.

(** [read_adc_buffer]: [result = DRL; result |= (DRH << 8)]. *)
Definition read_adc_buffer (adc : ADC1) : Z :=
  let result := uint16 (DRL adc) in
  uint16 (Z.lor result (Z.shiftl (DRH adc) 8)).

(** The statics of [display_adjust_brightness]. *)
Record window : Type := Window {
  averageBuffer : list Z;
  writeIndex : Z;
  runningTotal : Z
}.

(** [COUNT_OF(averageBuffer)]. *)
Definition COUNT_OF_averageBuffer : Z := 16.

(** Zero-initialised statics. *)
Definition window_init : window :=
  {| averageBuffer := repeat 0 16; writeIndex := 0; runningTotal := 0 |}.

(** The average [display_adjust_brightness] computes from the total. *)
Definition average (w : window) : Z := uint16 (runningTotal w / COUNT_OF_averageBuffer).

(** [display_adjust_brightness]: the new statics and the bus after the
    intensity command. *)
Definition display_adjust_brightness (adc : ADC1) (w : window) (bus : list bus_cmd)
  : window * list bus_cmd :=
  let reading := read_adc_buffer adc in
  let total1 := uint16 (runningTotal w - array_get (averageBuffer w) (writeIndex w)) in
  let total2 := uint16 (total1 + reading) in
  let buffer := array_set (averageBuffer w) (writeIndex w) reading in
  let index := uint8 ((writeIndex w + 1) mod COUNT_OF_averageBuffer) in
  let w' := {| averageBuffer := buffer; writeIndex := index; runningTotal := total2 |} in
  (w', max7219_cmd bus 0x0A (average w' / 64)).

(** The controller run over a sequence of conversions, oldest first. *)
Fixpoint adjust_all (adcs : list ADC1) (w : window) (bus : list bus_cmd) : window * list bus_cmd :=
  match adcs with
  | [] => (w, bus)
  | adc :: rest =>
      let '(w', bus') := display_adjust_brightness adc w bus in
      adjust_all rest w' bus'
  end.

(** A right-aligned 10-bit conversion result, as [main] configures the
    converter ([ADC1_CR2_ALIGN]): the high register holds two bits. *)
Definition ten_bit (adc : ADC1) : Prop := 0 <= DRL adc < 256 /\ 0 <= DRH adc < 4.

(** The arithmetic sum of a list of samples. *)
Definition sum (l : list Z) : Z := fold_right Z.add 0 l.

(** The window in arrival order, oldest sample first: the slot at the
    write index is the next to be evicted. *)
Definition chronological (w : window) : list Z :=
  drop (Z.to_nat (writeIndex w)) (averageBuffer w) ++ take (Z.to_nat (writeIndex w)) (averageBuffer w).

(** The state the controller keeps: sixteen 10-bit samples, a write index
    inside the buffer, and the total equal to the sum of the buffer. *)
Definition window_ok (w : window) : Prop :=
  length (averageBuffer w) = 16%nat
  /\ 0 <= writeIndex w < 16
  /\ Forall (fun v => 0 <= v < 1024) (averageBuffer w)
  /\ runningTotal w = sum (averageBuffer w).

End Brightness.

(** ** Time display *)

Module Clock.
Import Max7219 Brightness.

(** Modelled from the spec: the [DateTime] structure of [nmea.h], which is
    not among the sources. Six one-byte fields; the display reads the
    first three bytes as hour, minute, second (§4.5: "the first three
    byte-pairs (hour, minute, second as adjacent fields)"). *)
Record DateTime : Type := Time {
  hour : Z;
  minute : Z;
  second : Z;
  day : Z;
  month : Z;
  year : Z
}.

(** [(uint8_t* ) now]: the structure as the bytes it occupies. *)
Definition datetime_bytes (now : DateTime) : list Z :=
  [hour now; minute now; second now; day now; month now; year now].

Definition _timezoneOffset : Z := 13.

(** [apply_timezone_offset]: the local [hour] is an [int8_t]. *)
Definition apply_timezone_offset (now : DateTime) : DateTime :=
  let hour0 := int8 (hour now) in
  let hour1 := int8 (hour0 + _timezoneOffset) in
  let hour2 := if 23 <? hour1 then int8 (hour1 - 24)
               else if hour1 <? 0 then int8 (hour1 + 24)
               else hour1 in
  {| hour := uint8 hour2; minute := minute now; second := second now;
     day := day now; month := month now; year := year now |}.

(** The [while (ones >= 10) { ones -= 10; ++tens; }] loop of
    [display_update]; the result is (tens, ones) at the loop's exit. *)
Equations? split_tens (ones tens : Z) : Z * Z by wf (Z.to_nat ones) lt :=
  split_tens ones tens with Z_le_dec 10 ones := {
    | left _ := split_tens (uint8 (ones - 10)) (uint8 (tens + 1));
    | right _ := (tens, ones) }.
Proof.
  unfold uint8.
  assert (0 <= (ones - 10) mod 256 <= ones - 10).
  { split; [apply Z.mod_pos_bound; lia | apply Z.mod_le; lia]. }
  lia.
Qed.

(** The [for (int8_t i = 0; i < 3; ++i)] loop of [display_update]. *)
Fixpoint display_update_loop (n : nat) (i digit : Z) (now : DateTime) (planes : list Z) : list Z :=
  match n with
  | O => planes
  | S n' =>
      let '(tens, ones) := split_tens (array_get (datetime_bytes now) i) 0 in
      let planes1 := max7219_set_digit_bcd digit tens planes in
      let digit1 := uint8 (digit + 1) in
      let planes2 := max7219_set_digit_bcd digit1 ones planes1 in
      let digit2 := uint8 (digit1 + 1) in
      display_update_loop n' (int8 (i + 1)) digit2 now planes2
  end.

(** The (digit, value) arguments of the [max7219_set_digit_bcd] calls of
    that loop, in call order. *)
Fixpoint display_update_calls (n : nat) (i digit : Z) (now : DateTime) : list (Z * Z) :=
  match n with
  | O => []
  | S n' =>
      let '(tens, ones) := split_tens (array_get (datetime_bytes now) i) 0 in
      let digit1 := uint8 (digit + 1) in
      (digit, tens) :: (digit1, ones) ::
        display_update_calls n' (int8 (i + 1)) (uint8 (digit1 + 1)) now
  end.

(** *** The main context as a sequence of steps

    What the main loop executes is cut where the interrupt handler can come
    in between: a computation on RAM, one display command, or a change of
    the interrupt mask. *)
Inductive instr : Type :=
| disableInterrupts
| enableInterrupts
| ram (f : memory -> memory)
| cmd (address : Z) (data : memory -> Z).

Definition on_planes (f : list Z -> list Z) (m : memory) : memory :=
  {| _segmentWiseData := f (_segmentWiseData m); waitIndicator := waitIndicator m |}.

(** The loop of [max7219_write_digits]:
    [max7219_cmd(i + 1, _segmentWiseData[i])] for each plane. *)
Fixpoint max7219_write_digits_loop (n : nat) (i : Z) : list instr :=
  match n with
  | O => []
  | S n' =>
      let digitRegister := uint8 (i + 1) in
      cmd digitRegister (fun m => array_get (_segmentWiseData m) i)
        :: max7219_write_digits_loop n' (uint8 (i + 1))
  end.

Definition max7219_write_digits : list instr :=
  max7219_write_digits_loop (Z.to_nat kNumSegments) 0.

(** [display_update(now)]. *)
Definition display_update (now : DateTime) : list instr :=
  [disableInterrupts; ram (on_planes (display_update_loop 3 0 1 now))]
  ++ max7219_write_digits
  ++ [enableInterrupts].

(** [display_no_signal()]. *)
Definition display_no_signal : list instr :=
  [ram (on_planes display_clear);
   ram (fun m => on_planes (max7219_set_digit_bcd (uint8 (waitIndicator m + 1)) 0x8F) m);
   ram (fun m =>
          let w := uint8 (waitIndicator m + 1) in
          {| _segmentWiseData := _segmentWiseData m;
             waitIndicator := if w =? kNumDigits then 0 else w |})]
  ++ max7219_write_digits.

(** [display_error_code(code)]. *)
Definition display_error_code (code : Z) : list instr :=
  [ram (on_planes display_clear);
   ram (on_planes (max7219_set_digit_bcd 1 11));
   ram (on_planes (max7219_set_digit 2 0x50));
   ram (on_planes (max7219_set_digit_bcd 3 code))]
  ++ max7219_write_digits.

(** *** The machine: main context and conversion-complete interrupt *)

(** Who issued a display command. *)
Inductive origin : Type := MainLoop | Interrupt.

Record machine : Type := Machine {
  mem : memory;
  statics : window;
  interrupts : bool;
  bus : list (origin * bus_cmd);
  code : list instr
}.

(** One step of the main context. *)
Definition exec (i : instr) (m : machine) (rest : list instr) : machine :=
  match i with
  | disableInterrupts =>
      {| mem := mem m; statics := statics m; interrupts := false; bus := bus m; code := rest |}
  | enableInterrupts =>
      {| mem := mem m; statics := statics m; interrupts := true; bus := bus m; code := rest |}
  | ram f =>
      {| mem := f (mem m); statics := statics m; interrupts := interrupts m;
         bus := bus m; code := rest |}
  | cmd address data =>
      {| mem := mem m; statics := statics m; interrupts := interrupts m;
         bus := bus m ++ map (pair MainLoop) (max7219_cmd [] address (data (mem m)));
         code := rest |}
  end.

(** [adc_irq]: the handler runs to its end before the main context goes on,
    and the return from it restores the interrupt mask. *)
Definition adc_irq (adc : ADC1) (m : machine) : machine :=
  let '(w, issued) := display_adjust_brightness adc (statics m) [] in
  {| mem := mem m; statics := w; interrupts := interrupts m;
     bus := bus m ++ map (pair Interrupt) issued; code := code m |}.

(** What happens next: the main context takes a step, or a conversion
    completes and raises its interrupt. *)
Inductive event : Type :=
| Step
| Conversion (adc : ADC1).

(** An event that cannot happen in the state gives [None]: no step is left
    for the main context, or the interrupt is masked. *)
Definition step (e : event) (m : machine) : option machine :=
  match e with
  | Step =>
      match code m with
      | [] => None
      | i :: rest => Some (exec i m rest)
      end
  | Conversion adc => if interrupts m then Some (adc_irq adc m) else None
  end.

Fixpoint run (es : list event) (m : machine) : option machine :=
  match es with
  | [] => Some m
  | e :: rest =>
      match step e m with
      | Some m' => run rest m'
      | None => None
      end
  end.

(** The main context starts to execute [prog]. *)
Definition start (prog : list instr) (mem0 : memory) (w : window) (ie : bool) : machine :=
  {| mem := mem0; statics := w; interrupts := ie; bus := []; code := prog |}.

(** [prog] run to its end with no interrupt in between. *)
Definition call (prog : list instr) (mem0 : memory) (w : window) (ie : bool) : option machine :=
  run (repeat Step (length prog)) (start prog mem0 w ie).

(** A step that leaves the interrupt mask alone. *)
Definition quiet (i : instr) : bool :=
  match i with
  | ram _ | cmd _ _ => true
  | disableInterrupts | enableInterrupts => false
  end.

Definition from_main (c : origin * bus_cmd) : bool :=
  match fst c with MainLoop => true | Interrupt => false end.

Fixpoint skip_interrupt (tr : list (origin * bus_cmd)) : list (origin * bus_cmd) :=
  match tr with
  | c :: rest => if from_main c then tr else skip_interrupt rest
  | [] => []
  end.

Fixpoint skip_main (tr : list (origin * bus_cmd)) : list (origin * bus_cmd) :=
  match tr with
  | c :: rest => if from_main c then skip_main rest else tr
  | [] => []
  end.

Definition from_interrupt (c : origin * bus_cmd) : bool := negb (from_main c).

(** The commands of the main context are one block on the bus: after the
    first of them, no command of the handler comes before the last. *)
Definition flush_unbroken (tr : list (origin * bus_cmd)) : bool :=
  forallb from_interrupt (skip_main (skip_interrupt tr)).

End Clock.

(** ** Byte queue between the receive interrupt and the main context *)

Module Queue.

(** Modelled from the spec: the circular buffer of [circbuf.h], which is
    not among the sources (§3, §4.1). A fixed array of [capacity] bytes, a
    write index and a read index that each advance modulo the capacity;
    [append] stores the byte and then moves the write index, with no guard
    against a full buffer; [pop] takes the byte at the read index and moves
    it; the buffer is empty when the two indices are equal. *)
Record CircBuf : Type := Buf {
  data : list Z;
  readIndex : Z;
  writeIndex : Z
}.

Section Capacity.
Variable capacity : Z.

(** Modelled from the spec: the buffer at start-up, zero-initialised. *)
Definition circbuf_init : CircBuf :=
  {| data := repeat 0 (Z.to_nat capacity); readIndex := 0; writeIndex := 0 |}.

(** Modelled from the spec: [circbuf_is_empty]. *)
Definition circbuf_is_empty (b : CircBuf) : bool := writeIndex b =? readIndex b.

(** Modelled from the spec: [circbuf_append]. *)
Definition circbuf_append (b : CircBuf) (byte : Z) : CircBuf :=
  {| data := array_set (data b) (writeIndex b) byte;
     readIndex := readIndex b;
     writeIndex := (writeIndex b + 1) mod capacity |}.

(** Modelled from the spec: [circbuf_pop]. *)
Definition circbuf_pop (b : CircBuf) : Z * CircBuf :=
  (array_get (data b) (readIndex b),
   {| data := data b;
      readIndex := (readIndex b + 1) mod capacity;
      writeIndex := writeIndex b |}).

(** The two operations that change the queue, as a caller sees them. *)
Inductive op : Type :=
| Append (byte : Z)
| Pop.

(** A sequence of operations on a buffer; the second component collects
    what the pops returned, oldest first. *)
Fixpoint apply_ops (ops : list op) (b : CircBuf) (popped : list Z) : CircBuf * list Z :=
  match ops with
  | [] => (b, popped)
  | Append byte :: rest => apply_ops rest (circbuf_append b byte) popped
  | Pop :: rest =>
      let '(byte, b') := circbuf_pop b in
      apply_ops rest b' (popped ++ [byte])
  end.

(** The bytes a sequence of operations appends, in order. *)
Fixpoint appends (ops : list op) : list Z :=
  match ops with
  | [] => []
  | Append byte :: rest => byte :: appends rest
  | Pop :: rest => appends rest
  end.

(** No pop comes before the append of the byte it is to take:
    [pending] bytes are unread when [ops] starts. *)
Fixpoint pops_follow_appends (pending : nat) (ops : list op) : bool :=
  match ops with
  | [] => true
  | Append _ :: rest => pops_follow_appends (S pending) rest
  | Pop :: rest =>
      match pending with
      | O => false
      | S p => pops_follow_appends p rest
      end
  end.

(** Where the main context is in [uart_read_byte]: at the test of the
    [while (circbuf_is_empty(&_uartBuffer));] loop, or past it, at
    [return circbuf_pop(&_uartBuffer);]. *)
Inductive pc : Type := Polling | Popping.

Record reader : Type := Reader {
  _uartBuffer : CircBuf;
  at_pc : pc;
  returned : list Z      (* what the calls of uart_read_byte returned, oldest first *)
}.

Definition reader_init : reader :=
  {| _uartBuffer := circbuf_init; at_pc := Polling; returned := [] |}.

(** [uart1_receive_irq]: the received byte is appended. *)
Definition uart1_receive_irq (byte : Z) (r : reader) : reader :=
  {| _uartBuffer := circbuf_append (_uartBuffer r) (uint8 byte);
     at_pc := at_pc r; returned := returned r |}.

(** One step of [uart_read_byte] in the main context: the loop test, which
    goes round while the buffer is empty, or the pop and return (after
    which the next call starts). *)
Definition uart_read_byte_step (r : reader) : reader :=
  match at_pc r with
  | Polling =>
      if circbuf_is_empty (_uartBuffer r) then r
      else {| _uartBuffer := _uartBuffer r; at_pc := Popping; returned := returned r |}
  | Popping =>
      let '(byte, b) := circbuf_pop (_uartBuffer r) in
      {| _uartBuffer := b; at_pc := Polling; returned := returned r ++ [byte] |}
  end.

(** A byte arrives and raises the receive interrupt, or the main context
    takes a step. *)
Inductive event : Type :=
| Receive (byte : Z)
| Step.

Definition step (r : reader) (e : event) : reader :=
  match e with
  | Receive byte => uart1_receive_irq byte r
  | Step => uart_read_byte_step r
  end.

Definition run (es : list event) (r : reader) : reader := fold_left step es r.

(** The bytes the interrupt appended during [es], oldest first. *)
Fixpoint appended (es : list event) : list Z :=
  match es with
  | [] => []
  | Receive byte :: rest => uint8 byte :: appended rest
  | Step :: rest => appended rest
  end.
End Capacity.

End Queue.

(** ** The main loop *)

Module Main.
Import Max7219 Brightness Clock.

(** [apply_timezone_offset] with the value of the static [_timezoneOffset]
    made explicit: the function reads the variable, an [int8_t]. *)
Definition apply_timezone_offset_by (offset : Z) (now : DateTime) : DateTime :=
  let hour0 := int8 (hour now) in
  let hour1 := int8 (hour0 + offset) in
  let hour2 := if 23 <? hour1 then int8 (hour1 - 24)
               else if hour1 <? 0 then int8 (hour1 + 24)
               else hour1 in
  {| hour := uint8 hour2; minute := minute now; second := second now;
     day := day now; month := month now; year := year now |}.





(** The eight commands of a flush of [planes], as the bus carries them. *)
Definition flush_of (planes : list Z) : list bus_cmd :=
  map (fun k => (k + 1, uint8 (array_get planes k))) [0; 1; 2; 3; 4; 5; 6; 7].

End Main.

(** ** The checksum in closed form *)

Module Fletcher.

(** The weighted sum of a byte sequence: the first of n bytes counts n
    times, the last once. *)
Fixpoint weighted (l : list Z) : Z :=
  match l with
  | [] => 0
  | x :: rest => (Z.of_nat (length rest) + 1) * x + weighted rest
  end.

End Fletcher.

(** * Properties *)

(** ** Machine integers and arrays *)

Lemma uint8_small (x : Z) : 0 <= x < 256 -> uint8 x = x.
Proof. intros H. unfold uint8. apply Z.mod_small. exact H. Qed.

Lemma uint16_small (x : Z) : 0 <= x < 65536 -> uint16 x = x.
Proof. intros H. unfold uint16. apply Z.mod_small. exact H. Qed.

Lemma uint8_range (x : Z) : 0 <= uint8 x < 256.
Proof. unfold uint8. apply Z.mod_pos_bound. lia. Qed.

Lemma uint16_range (x : Z) : 0 <= uint16 x < 65536.
Proof. unfold uint16. apply Z.mod_pos_bound. lia. Qed.

Lemma array_get_lookup (a : list Z) (k : nat) (x : Z) :
  a !! k = Some x -> array_get a (Z.of_nat k) = x.
Proof. intros H. unfold array_get. rewrite Nat2Z.id, H. reflexivity. Qed.

(** ** Serial transport *)

Section UartFacts.
Import Uart.

(** The stream loop sends the first [n] bytes the pointer designates. *)
Lemma uart_send_stream_loop_take (n : nat) :
  forall tx bytes, (n <= length bytes)%nat ->
    uart_send_stream_loop n tx bytes = tx ++ take n bytes.
Proof.
  induction n as [|n IH]; intros tx bytes Hn; simpl.
  - rewrite app_nil_r. reflexivity.
  - destruct bytes as [|b bytes]; simpl in Hn; [lia|].
    simpl. rewrite IH by lia.
    unfold uart_send_blocking, array_get. simpl.
    rewrite <- app_assoc. reflexivity.
Qed.

End UartFacts.

(** ** Checksum and framing *)

Section UbxFacts.
Import Uart Ubx.

(** The indexed loop is the left fold over the bytes it visits. *)
Lemma ubx_update_checksum_loop_fold (n : nat) :
  forall (k : nat) (c : checksum) (data : list Z),
    (k + n <= length data)%nat -> Z.of_nat (k + n) <= 65535 ->
    ubx_update_checksum_loop n (Z.of_nat k) c data
    = fold_left ubx_update_checksum (take n (drop k data)) c.
Proof.
  induction n as [|n IH]; intros k c data Hlen Hmax.
  - reflexivity.
  - destruct (data !! k) as [x|] eqn:Hx.
    2:{ apply lookup_ge_None in Hx. lia. }
    rewrite (drop_S _ _ _ Hx). simpl.
    rewrite (array_get_lookup _ _ _ Hx).
    rewrite uint16_small by lia.
    replace (Z.of_nat k + 1) with (Z.of_nat (S k)) by lia.
    apply IH; lia.
Qed.

(** [ubx_update_checksum_multi] reads the first [len] bytes of [data] and
    nothing else. *)
Lemma ubx_update_checksum_multi_fold (c : checksum) (data : list Z) (len : nat) :
  (len <= length data)%nat -> Z.of_nat len <= 65535 ->
  ubx_update_checksum_multi c data (Z.of_nat len)
  = fold_left ubx_update_checksum (take len data) c.
Proof.
  intros Hlen Hmax. unfold ubx_update_checksum_multi.
  rewrite uint16_small by lia. rewrite Nat2Z.id.
  apply (ubx_update_checksum_loop_fold len 0 c data); simpl; lia.
Qed.

(** What [ubx_send] puts on the wire for a payload of [len] bytes: the
    header, the first [len mod 256] payload bytes (the stream routine counts
    in 8 bits), and the checksum of class, id, length and whole payload. *)
Lemma ubx_send_wire (tx : list Z) (msgClass msgId : Z) (data : list Z) :
  let len := Z.of_nat (length data) in
  len <= 65535 ->
  ubx_send tx msgClass msgId data len
  = tx ++ [0xB5; 0x62; msgClass; msgId; len mod 256; len / 256]
       ++ take (Z.to_nat (len mod 256)) data
       ++ (let c := checksum_fold ([msgClass; msgId; len mod 256; len / 256] ++ data) in
           [fst c; snd c]).
Proof.
  intros len Hmax. unfold ubx_send, ubx_header.
  assert (Hlo : uint8 (Z.land len 0xFF) = len mod 256).
  { change 0xFF with (Z.ones 8). rewrite Z.land_ones by lia.
    apply uint8_small. apply Z.mod_pos_bound. lia. }
  assert (Hhi : uint8 (Z.shiftr len 8) = len / 256).
  { rewrite Z.shiftr_div_pow2 by lia. change (2 ^ 8) with 256.
    apply uint8_small. split; [apply Z.div_pos; lia|].
    apply Z.div_lt_upper_bound; lia. }
  rewrite Hlo, Hhi. cbn [drop].
  change (6 - 2) with (Z.of_nat 4).
  rewrite (ubx_update_checksum_multi_fold (0, 0) _ 4) by (simpl; lia).
  unfold len at 1 2.
  rewrite (ubx_update_checksum_multi_fold _ data (length data)) by lia.
  rewrite firstn_all. cbn [take].
  unfold uart_send_stream_blocking.
  change (Z.to_nat (uint8 6)) with 6%nat. change (Z.to_nat (uint8 2)) with 2%nat.
  assert (Hn : (Z.to_nat (uint8 len) <= length data)%nat).
  { unfold uint8.
    pose proof (Z.mod_pos_bound len 256 ltac:(lia)).
    pose proof (Z.mod_le len 256 ltac:(lia) ltac:(lia)). lia. }
  rewrite !uart_send_stream_loop_take by (exact Hn || (simpl; lia)).
  unfold checksum_fold, uint8. rewrite fold_left_app.
  rewrite <- !app_assoc. reflexivity.
Qed.

End UbxFacts.

Section UbxClaims.
Import Uart Ubx.

(** For a payload that the 8-bit stream counter can hold, the frame is
    header, payload, checksum: [8 + len] bytes, the length little-endian in
    the header, the checksum over class, id, length and payload. *)
Lemma ubx_send_frame (tx : list Z) (msgClass msgId : Z) (data : list Z) :
  let len := Z.of_nat (length data) in
  len <= 255 ->
  ubx_send tx msgClass msgId data len
  = tx ++ [0xB5; 0x62; msgClass; msgId; len; 0] ++ data
       ++ (let c := checksum_fold ([msgClass; msgId; len; 0] ++ data) in [fst c; snd c]).
Proof.
  intros len Hlen.
  pose proof (ubx_send_wire tx msgClass msgId data ltac:(fold len; lia)) as H.
  fold len in H. rewrite H.
  rewrite (Z.mod_small len 256), (Z.div_small len 256) by lia.
  replace (Z.to_nat len) with (length data) by (subst len; lia).
  rewrite firstn_all. reflexivity.
Qed.

(** C4: from (0,0), the checksum of no byte is (0,0) and the checksum of one
    byte v is (v, v); one update is a += byte, b += a modulo 256; and
    [ubx_update_checksum_multi] is the left fold of that update over the
    [len] bytes it is given, so that it depends on these bytes and their
    order only. *)
Theorem checksum_is_pure_fold (v : Z) (c : checksum) (data data' : list Z) (len : nat) :
  0 <= v < 256 ->
  (len <= length data)%nat -> Z.of_nat len <= 65535 ->
  take len data' = take len data ->
  ubx_update_checksum_multi (0, 0) [] 0 = (0, 0)
  /\ ubx_update_checksum_multi (0, 0) [v] 1 = (v, v)
  /\ ubx_update_checksum c v = ((fst c + v) mod 256, (snd c + (fst c + v) mod 256) mod 256)
  /\ ubx_update_checksum_multi c data (Z.of_nat len)
     = fold_left ubx_update_checksum (take len data) c
  /\ ubx_update_checksum_multi (0, 0) data (Z.of_nat len) = checksum_fold (take len data)
  /\ ubx_update_checksum_multi c data' (Z.of_nat len)
     = ubx_update_checksum_multi c data (Z.of_nat len).
Proof.
  intros Hv Hlen Hmax Hsame.
  assert (Hlen' : (len <= length data')%nat).
  { apply (f_equal length) in Hsame. rewrite !length_take in Hsame. lia. }
  split; [reflexivity|].
  split.
  { change (ubx_update_checksum_multi (0, 0) [v] 1) with (ubx_update_checksum (0, 0) v).
    unfold ubx_update_checksum. cbn [fst snd].
    rewrite !Z.add_0_l, !uint8_small by (rewrite ?uint8_small; lia). reflexivity. }
  split; [reflexivity|].
  split; [apply ubx_update_checksum_multi_fold; assumption|].
  split; [apply ubx_update_checksum_multi_fold; assumption|].
  rewrite !ubx_update_checksum_multi_fold by assumption.
  rewrite Hsame. reflexivity.
Qed.

(** The claim at a concrete input. *)
Lemma checksum_is_pure_fold_witness :
  ubx_update_checksum_multi (0, 0) [0x42] 1 = (0x42, 0x42)
  /\ ubx_update_checksum_multi (0, 0) [6; 0x31; 9] 2
     = ubx_update_checksum_multi (0, 0) [6; 0x31; 7; 7] 2.
Proof.
  destruct (checksum_is_pure_fold 0x42 (0, 0) [6; 0x31; 7; 7] [6; 0x31; 9] 2)
    as (_ & H1 & _ & _ & _ & H2).
  - lia.
  - simpl. lia.
  - lia.
  - reflexivity.
  - split; [exact H1 | exact H2].
Defined.

End UbxClaims.

Section FrameClaims.
Import Uart Ubx.

(** C5: a payload of 256 bytes, a length the 16-bit length field holds. The
    header announces 256 bytes (length bytes 0x00 0x01) and the checksum
    covers all 260 bytes from the class to the end of the payload, but the
    stream routine's 8-bit counter sends [256 mod 256 = 0] payload bytes:
    8 bytes go out where the frame should have [8 + 256]. *)
Theorem ubx_send_drops_long_payload :
  let data := repeat 0x55 256 in
  let frame := ubx_send [] 0x06 0x31 data 256 in
  Z.of_nat (length data) = 256
  /\ take 6 frame = [0xB5; 0x62; 0x06; 0x31; 0x00; 0x01]
  /\ drop 6 frame = (let c := checksum_fold ([0x06; 0x31; 0x00; 0x01] ++ data) in [fst c; snd c])
  /\ Z.of_nat (length frame) = 8
  /\ Z.of_nat (length frame) <> 8 + 256.
Proof. vm_compute. repeat split; discriminate. Qed.

(** Up to 255 payload bytes the frame is as the encoder's contract has it:
    [8 + L] bytes, the two sync bytes first, L little-endian in the fifth
    and sixth byte, and last the checksum folded over class, id, length and
    payload, sync bytes left out. *)
Lemma ubx_send_frame_short (msgClass msgId : Z) (data : list Z) :
  let L := Z.of_nat (length data) in
  let frame := ubx_send [] msgClass msgId data L in
  L <= 255 ->
  Z.of_nat (length frame) = 8 + L
  /\ take 2 frame = [0xB5; 0x62]
  /\ array_get frame 4 + 256 * array_get frame 5 = L
  /\ drop (6 + length data) frame
     = (let c := checksum_fold (take (4 + length data) (drop 2 frame)) in [fst c; snd c]).
Proof.
  intros L frame HL. subst frame L.
  rewrite (ubx_send_frame [] msgClass msgId data HL).
  cbn [app take drop length array_get lookup list_lookup Z.to_nat Pos.to_nat
       Pos.iter_op Init.Nat.add default Nat.add].
  rewrite length_app. cbn [length].
  split; [lia|]. split; [reflexivity|]. split.
  - unfold array_get.
    change (Z.to_nat 4) with 4%nat. change (Z.to_nat 5) with 5%nat.
    cbn. lia.
  - rewrite drop_app_length, take_app_length. reflexivity.
Qed.

(** C2, as the code has it: whatever bytes the payload macros expand to,
    as long as each field has the width its macro names, the time-pulse
    payload is 32 bytes long and the message sent is 40 bytes: the header
    B5 62 06 31 20 00, the payload, and the checksum pair that is the fold
    over the 36 bytes between the sync bytes and the checksum. *)
Theorem gps_init_tp5_frame (u8 u16 s16 u32 s32 : Z -> list Z) :
  (forall x, length (u8 x) = 1%nat) ->
  (forall x, length (u16 x) = 2%nat) ->
  (forall x, length (s16 x) = 2%nat) ->
  (forall x, length (u32 x) = 4%nat) ->
  (forall x, length (s32 x) = 4%nat) ->
  let payload := cfg_tp5_data u8 u16 s16 u32 s32 in
  let frame := gps_init_tp5 u8 u16 s16 u32 s32 [] in
  length payload = 32%nat
  /\ length frame = 40%nat
  /\ take 6 frame = [0xB5; 0x62; 0x06; 0x31; 32; 0]
  /\ take 32 (drop 6 frame) = payload
  /\ drop 38 frame = (let c := checksum_fold (take 36 (drop 2 frame)) in [fst c; snd c]).
Proof.
  intros H8 H16 HS16 H32 HS32 payload frame.
  assert (Hlen : length payload = 32%nat).
  { unfold payload, cfg_tp5_data. rewrite !length_app.
    rewrite !H8, !H16, !HS16, !H32, !HS32. reflexivity. }
  split; [exact Hlen|].
  subst frame. unfold gps_init_tp5. fold payload.
  rewrite (ubx_send_frame [] 0x06 0x31 payload) by lia.
  rewrite Hlen. change (Z.of_nat 32) with 32.
  cbn [app take drop length].
  rewrite length_app, Hlen. cbn [length].
  split; [reflexivity|]. split; [reflexivity|]. split.
  - apply take_app_length'. symmetry. exact Hlen.
  - rewrite (drop_app_length' payload) by (symmetry; exact Hlen).
    rewrite (take_app_length' payload) by (symmetry; exact Hlen).
    reflexivity.
Qed.

(** The claim at the little-endian expansion of the macros. *)
Lemma gps_init_tp5_frame_witness :
  length (gps_init_tp5 U8 U16 S16 U32 S32 []) = 40%nat.
Proof.
  apply (gps_init_tp5_frame U8 U16 S16 U32 S32); intros x; reflexivity.
Defined.

(** C2 as stated fails: with the fields little-endian at the widths their
    macros name, the payload is not 28 bytes long and the frame not 36. *)
Lemma gps_init_tp5_not_28_bytes :
  ~ (length (cfg_tp5_data U8 U16 S16 U32 S32) = 28%nat
     /\ length (gps_init_tp5 U8 U16 S16 U32 S32 []) = 36%nat).
Proof. vm_compute. intros [H _]. discriminate H. Qed.

End FrameClaims.

(** ** Time display *)

Section ClockClaims.
Import Max7219 Brightness Clock.

(** The subtraction loop from any point in its run: as long as the count of
    tens stays in 8 bits, it adds the quotient and leaves the remainder. *)
Lemma split_tens_div_mod (ones tens : Z) :
  0 <= ones < 256 -> 0 <= tens -> tens + ones / 10 < 256 ->
  split_tens ones tens = (tens + ones / 10, ones mod 10).
Proof.
  funelim (split_tens ones tens); intros Hones Htens Hfit.
  - match goal with IH : _ -> _ -> _ -> split_tens _ _ = _ |- _ => rename IH into IH' end.
    assert (Hq : ones / 10 = (ones - 10) / 10 + 1).
    { replace ones with ((ones - 10) + 1 * 10) at 1 by lia.
      rewrite Z.div_add by lia. reflexivity. }
    assert (Hr : ones mod 10 = (ones - 10) mod 10).
    { replace ones with ((ones - 10) + 1 * 10) at 1 by lia.
      rewrite Z.mod_add by lia. reflexivity. }
    assert (Hd : 0 <= (ones - 10) / 10) by (apply Z.div_pos; lia).
    rewrite (uint8_small (ones - 10)) in * by lia.
    rewrite (uint8_small (tens + 1)) in * by lia.
    rewrite IH' by lia. rewrite Hq, Hr. f_equal. lia.
  - f_equal.
    + rewrite Z.div_small by lia. lia.
    + rewrite Z.mod_small by lia. reflexivity.
Qed.

(** The loop as [display_update] enters it, with no tens counted yet. *)
Lemma split_tens_byte (v : Z) :
  0 <= v < 256 -> split_tens v 0 = (v / 10, v mod 10).
Proof.
  intros Hv. rewrite split_tens_div_mod.
  - reflexivity.
  - exact Hv.
  - lia.
  - assert (v / 10 < 26) by (apply Z.div_lt_upper_bound; lia). lia.
Qed.

(** C8: for every 8-bit value v, the subtraction loop of [display_update],
    entered with [tens = 0], comes to its end with tens = v / 10 and
    ones = v % 10: the two results recompose v, and the ones are a single
    decimal digit. *)
Theorem split_tens_is_div_mod (v : Z) :
  0 <= v < 256 ->
  let '(tens, ones) := split_tens v 0 in
  tens = v / 10 /\ ones = v mod 10 /\ v = 10 * tens + ones /\ 0 <= ones < 10.
Proof.
  intros Hv. rewrite (split_tens_byte v Hv).
  pose proof (Z.div_mod v 10 ltac:(lia)).
  pose proof (Z.mod_pos_bound v 10 ltac:(lia)).
  repeat split; lia.
Qed.

(** The claim at 255, the largest input. *)
Lemma split_tens_is_div_mod_witness : split_tens 255 0 = (25, 5).
Proof.
  pose proof (split_tens_is_div_mod 255 ltac:(lia)) as H.
  destruct (split_tens 255 0) as [tens ones].
  destruct H as (-> & -> & _). reflexivity.
Defined.

End ClockClaims.

(** ** Digit/segment planes *)

Section PlaneFacts.
Import Max7219.

(** A [uint8_t] keeps the low eight bits. *)
Lemma uint8_testbit (x n : Z) :
  0 <= n -> Z.testbit (uint8 x) n = (n <? 8) && Z.testbit x n.
Proof.
  intros Hn. unfold uint8. change 256 with (2 ^ 8).
  destruct (Z.ltb_spec n 8).
  - rewrite Z.mod_pow2_bits_low by lia. reflexivity.
  - rewrite Z.mod_pow2_bits_high by lia. reflexivity.
Qed.

Lemma segment_bit0 (segments : Z) :
  negb (Z.land segments 0x01 =? 0) = Z.testbit segments 0.
Proof.
  change 0x01 with (Z.ones 1). rewrite Z.land_ones by lia.
  change (2 ^ 1) with 2. rewrite <- Z.bit0_mod.
  destruct (Z.testbit segments 0); reflexivity.
Qed.

(** One plane byte after the loop body: the digit's bit is the segment
    bit, the other seven are as they were. *)
Lemma set_plane_testbit (d segments p n : Z) :
  0 <= d < 8 -> 0 <= n ->
  Z.testbit (set_plane (2 ^ d) segments p) n
  = (n <? 8) && (if n =? d then Z.testbit segments 0 else Z.testbit p n).
Proof.
  intros Hd Hn. unfold set_plane. rewrite segment_bit0.
  destruct (Z.testbit segments 0); rewrite uint8_testbit by lia; f_equal.
  - rewrite Z.lor_spec, Z.pow2_bits_eqb by lia.
    rewrite (Z.eqb_sym d n). destruct (n =? d); [apply orb_true_r | apply orb_false_r].
  - rewrite Z.land_spec, Z.lnot_spec, Z.pow2_bits_eqb by lia.
    rewrite (Z.eqb_sym d n). destruct (n =? d); [apply andb_false_r | apply andb_true_r].
Qed.

(** The loop body on two different digits commutes. *)
Lemma set_plane_comm (d1 d2 s1 s2 p : Z) :
  0 <= d1 < 8 -> 0 <= d2 < 8 -> d1 <> d2 ->
  set_plane (2 ^ d1) s1 (set_plane (2 ^ d2) s2 p)
  = set_plane (2 ^ d2) s2 (set_plane (2 ^ d1) s1 p).
Proof.
  intros H1 H2 Hne. apply Z.bits_inj'. intros n Hn.
  rewrite !set_plane_testbit by lia.
  destruct (Z.eqb_spec n d1), (Z.eqb_spec n d2), (n <? 8); try reflexivity; lia.
Qed.

(** The eight rounds of the loop on the eight planes. *)
Lemma max7219_set_digit_loop_planes (digitMask s p0 p1 p2 p3 p4 p5 p6 p7 : Z) :
  max7219_set_digit_loop 8 0 digitMask s [p0; p1; p2; p3; p4; p5; p6; p7]
  = [set_plane digitMask s p0;
     set_plane digitMask (Z.shiftr s 1) p1;
     set_plane digitMask (Z.shiftr (Z.shiftr s 1) 1) p2;
     set_plane digitMask (Z.shiftr (Z.shiftr (Z.shiftr s 1) 1) 1) p3;
     set_plane digitMask (Z.shiftr (Z.shiftr (Z.shiftr (Z.shiftr s 1) 1) 1) 1) p4;
     set_plane digitMask (Z.shiftr (Z.shiftr (Z.shiftr (Z.shiftr (Z.shiftr s 1) 1) 1) 1) 1) p5;
     set_plane digitMask
       (Z.shiftr (Z.shiftr (Z.shiftr (Z.shiftr (Z.shiftr (Z.shiftr s 1) 1) 1) 1) 1) 1) p6;
     set_plane digitMask
       (Z.shiftr (Z.shiftr (Z.shiftr (Z.shiftr (Z.shiftr (Z.shiftr (Z.shiftr s 1) 1) 1) 1) 1) 1) 1)
       p7].
Proof. reflexivity. Qed.

(** A byte is the sum of its eight bits. *)
Lemma byte_bits (s : Z) :
  0 <= s < 256 ->
  Z.b2z (Z.testbit s 0) + 2 * (Z.b2z (Z.testbit s 1) + 2 * (Z.b2z (Z.testbit s 2)
  + 2 * (Z.b2z (Z.testbit s 3) + 2 * (Z.b2z (Z.testbit s 4) + 2 * (Z.b2z (Z.testbit s 5)
  + 2 * (Z.b2z (Z.testbit s 6) + 2 * (Z.b2z (Z.testbit s 7) + 2 * 0))))))) = s.
Proof.
  intros H. rewrite !Z.testbit_spec' by lia.
  change (2 ^ 0) with 1; change (2 ^ 1) with 2; change (2 ^ 2) with 4;
  change (2 ^ 3) with 8; change (2 ^ 4) with 16; change (2 ^ 5) with 32;
  change (2 ^ 6) with 64; change (2 ^ 7) with 128.
  Z.div_mod_to_equations. lia.
Qed.

Lemma digit_cases (i : Z) :
  1 <= i <= 6 -> i = 1 \/ i = 2 \/ i = 3 \/ i = 4 \/ i = 5 \/ i = 6.
Proof. lia. Qed.

Ltac each_digit H :=
  apply digit_cases in H;
  destruct H as [H|[H|[H|[H|[H|H]]]]]; rewrite H in *; clear H.

(** The bit of a digit of the display is one of the eight of a plane byte,
    and its mask is that single bit. *)
Lemma mappedDigit_bit (i : Z) :
  1 <= i <= 6 -> 0 <= mappedDigit i < 8 /\ digitMask i = 2 ^ mappedDigit i.
Proof. intros H. each_digit H; vm_compute; repeat split; congruence. Qed.

(** The digit map sends the six digits to six different bits. *)
Lemma mappedDigit_inj (i j : Z) :
  1 <= i <= 6 -> 1 <= j <= 6 -> mappedDigit i = mappedDigit j -> i = j.
Proof.
  intros Hi Hj. each_digit Hi; each_digit Hj; vm_compute; intros H;
    first [reflexivity | discriminate H].
Qed.

(** The array of planes has [kNumSegments] bytes. *)
Lemma eight_planes (planes : list Z) :
  length planes = 8%nat ->
  exists p0 p1 p2 p3 p4 p5 p6 p7, planes = [p0; p1; p2; p3; p4; p5; p6; p7].
Proof.
  intros H.
  do 8 (destruct planes as [|? planes]; [discriminate H|]).
  destruct planes; [|discriminate H].
  repeat eexists.
Qed.

Ltac name_planes planes H :=
  destruct (eight_planes planes H) as (?p & ?p & ?p & ?p & ?p & ?p & ?p & ?p & ->).

Lemma shiftr_bit0 (s k : Z) : 0 <= k -> Z.testbit (Z.shiftr s k) 0 = Z.testbit s k.
Proof. intros Hk. rewrite Z.shiftr_spec by lia. reflexivity. Qed.

(** [max7219_set_digit] on the eight planes, bit by bit: plane k takes bit k
    of [segments] at the digit's position and keeps its other bits. *)
Lemma max7219_set_digit_planes (i s p0 p1 p2 p3 p4 p5 p6 p7 : Z) :
  max7219_set_digit i s [p0; p1; p2; p3; p4; p5; p6; p7]
  = [set_plane (digitMask i) s p0;
     set_plane (digitMask i) (Z.shiftr s 1) p1;
     set_plane (digitMask i) (Z.shiftr s 2) p2;
     set_plane (digitMask i) (Z.shiftr s 3) p3;
     set_plane (digitMask i) (Z.shiftr s 4) p4;
     set_plane (digitMask i) (Z.shiftr s 5) p5;
     set_plane (digitMask i) (Z.shiftr s 6) p6;
     set_plane (digitMask i) (Z.shiftr s 7) p7].
Proof.
  unfold max7219_set_digit. change (Z.to_nat kNumSegments) with 8%nat.
  rewrite max7219_set_digit_loop_planes.
  rewrite !Z.shiftr_shiftr by lia. reflexivity.
Qed.

(** After [max7219_set_digit], the digit shows the segments it was given. *)
Lemma shown_segments_set_same (i s : Z) (planes : list Z) :
  1 <= i <= 6 -> length planes = 8%nat ->
  shown_segments (max7219_set_digit i s planes) i = uint8 s.
Proof.
  intros Hi Hlen. name_planes planes Hlen.
  rewrite max7219_set_digit_planes.
  destruct (mappedDigit_bit i Hi) as [Hd ->].
  unfold shown_segments. cbn [fold_right].
  rewrite !set_plane_testbit by lia.
  rewrite Z.eqb_refl. replace (mappedDigit i <? 8) with true by (symmetry; apply Z.ltb_lt; lia).
  cbn [andb]. rewrite !shiftr_bit0 by lia.
  etransitivity; [|apply (byte_bits (uint8 s)), uint8_range].
  rewrite !uint8_testbit by lia. reflexivity.
Qed.

(** A digit's bit in plane [k] is not touched by [max7219_set_digit] on
    another digit. *)
Lemma max7219_set_digit_other_bit (i j s k : Z) (planes : list Z) :
  1 <= i <= 6 -> 1 <= j <= 6 -> i <> j -> length planes = 8%nat -> 0 <= k < 8 ->
  Z.testbit (array_get (max7219_set_digit i s planes) k) (mappedDigit j)
  = Z.testbit (array_get planes k) (mappedDigit j).
Proof.
  intros Hi Hj Hne Hlen Hk. name_planes planes Hlen.
  rewrite max7219_set_digit_planes.
  pose proof (mappedDigit_inj i j Hi Hj) as Hinj.
  destruct (mappedDigit_bit i Hi) as [Hdi ->].
  destruct (mappedDigit_bit j Hj) as [Hdj _].
  unfold array_get.
  assert (Hcases : k = 0 \/ k = 1 \/ k = 2 \/ k = 3 \/ k = 4 \/ k = 5 \/ k = 6 \/ k = 7) by lia.
  assert (Hlt : (mappedDigit j <? 8) = true) by (apply Z.ltb_lt; lia).
  assert (Hneq : (mappedDigit j =? mappedDigit i) = false).
  { apply Z.eqb_neq. intros E. apply Hne, Hinj. symmetry. exact E. }
  destruct Hcases as [->|[->|[->|[->|[->|[->|[->| ->]]]]]]];
    match goal with
    | |- context [Z.to_nat ?c] => let n := eval vm_compute in (Z.to_nat c) in
                                  change (Z.to_nat c) with n
    end;
    cbn [lookup list_lookup default id];
    rewrite set_plane_testbit by lia;
    rewrite Hlt, Hneq; reflexivity.
Qed.

(** What another digit shows is not changed either. *)
Lemma shown_segments_set_other (i j s : Z) (planes : list Z) :
  1 <= i <= 6 -> 1 <= j <= 6 -> i <> j -> length planes = 8%nat ->
  shown_segments (max7219_set_digit i s planes) j = shown_segments planes j.
Proof.
  intros Hi Hj Hne Hlen.
  name_planes planes Hlen.
  rewrite max7219_set_digit_planes.
  pose proof (mappedDigit_inj i j Hi Hj) as Hinj.
  destruct (mappedDigit_bit i Hi) as [Hdi ->].
  destruct (mappedDigit_bit j Hj) as [Hdj _].
  assert (Hlt : (mappedDigit j <? 8) = true) by (apply Z.ltb_lt; lia).
  assert (Hneq : (mappedDigit j =? mappedDigit i) = false).
  { apply Z.eqb_neq. intros E. apply Hne, Hinj. symmetry. exact E. }
  unfold shown_segments. cbn [fold_right].
  rewrite !set_plane_testbit by lia.
  rewrite Hlt, Hneq. reflexivity.
Qed.

Lemma length_max7219_set_digit (i s : Z) (planes : list Z) :
  length planes = 8%nat -> length (max7219_set_digit i s planes) = 8%nat.
Proof.
  intros Hlen. name_planes planes Hlen.
  rewrite max7219_set_digit_planes. reflexivity.
Qed.

(** [max7219_set_digit] on two different digits, in either order. *)
Lemma max7219_set_digit_comm (i j s t : Z) (planes : list Z) :
  1 <= i <= 6 -> 1 <= j <= 6 -> i <> j -> length planes = 8%nat ->
  max7219_set_digit i s (max7219_set_digit j t planes)
  = max7219_set_digit j t (max7219_set_digit i s planes).
Proof.
  intros Hi Hj Hne Hlen. name_planes planes Hlen.
  rewrite !max7219_set_digit_planes.
  pose proof (mappedDigit_inj i j Hi Hj) as Hinj.
  destruct (mappedDigit_bit i Hi) as [Hdi ->].
  destruct (mappedDigit_bit j Hj) as [Hdj ->].
  assert (Hd : mappedDigit i <> mappedDigit j) by (intros E; apply Hne, Hinj, E).
  repeat (apply (f_equal2 cons); [apply set_plane_comm; assumption|]).
  reflexivity.
Qed.

(** The low four bits of the value select one of the sixteen patterns. *)
Lemma low_nibble_cases (v : Z) :
  exists m, Z.land v 0xF = m /\
  (m = 0 \/ m = 1 \/ m = 2 \/ m = 3 \/ m = 4 \/ m = 5 \/ m = 6 \/ m = 7 \/
   m = 8 \/ m = 9 \/ m = 10 \/ m = 11 \/ m = 12 \/ m = 13 \/ m = 14 \/ m = 15).
Proof.
  exists (Z.land v 0xF). split; [reflexivity|].
  assert (H : 0 <= Z.land v 0xF < 16).
  { change (Z.land v 0xF) with (Z.land v (Z.ones 4)). rewrite Z.land_ones by lia.
    apply Z.mod_pos_bound. reflexivity. }
  lia.
Qed.

Lemma high_bit_mask (v : Z) : Z.testbit v 7 = true -> Z.land v 0x80 = 0x80.
Proof.
  intros Hv. apply Z.bits_inj'. intros n Hn.
  rewrite Z.land_spec. change 0x80 with (2 ^ 7).
  rewrite Z.pow2_bits_eqb by lia.
  destruct (Z.eqb_spec 7 n) as [<-|]; [rewrite Hv; reflexivity | apply andb_false_r].
Qed.

(** C6: on each of the six digits, [max7219_set_digit_bcd] with a value 0..9
    makes the digit show the standard seven-segment pattern of that value;
    and with a value whose bit 0x80 is set it makes the digit show the
    pattern the low four bits select with the decimal point (bit 7) lit and
    the seven other segment bits as in that pattern. *)
Theorem set_digit_bcd_patterns (i v : Z) (planes : list Z) :
  1 <= i <= 6 -> length planes = 8%nat ->
  (0 <= v <= 9 ->
     shown_segments (max7219_set_digit_bcd i v planes) i
     = array_get [0x3F; 0x06; 0x5B; 0x4F; 0x66; 0x6D; 0x7D; 0x07; 0x7F; 0x6F] v)
  /\ (Z.testbit v 7 = true ->
       let pattern := array_get bcdMap (Z.land v 0xF) in
       let shown := shown_segments (max7219_set_digit_bcd i v planes) i in
       shown = Z.lor pattern 0x80
       /\ Z.testbit shown 7 = true
       /\ forall k, 0 <= k < 7 -> Z.testbit shown k = Z.testbit pattern k).
Proof.
  intros Hi Hlen. unfold max7219_set_digit_bcd.
  rewrite shown_segments_set_same by assumption.
  split.
  - intros Hv.
    assert (Hc : v = 0 \/ v = 1 \/ v = 2 \/ v = 3 \/ v = 4 \/ v = 5 \/ v = 6 \/ v = 7
                 \/ v = 8 \/ v = 9) by lia.
    destruct Hc as [->|[->|[->|[->|[->|[->|[->|[->|[->| ->]]]]]]]]]; reflexivity.
  - intros Hv.
    set (pattern := array_get bcdMap (Z.land v 0xF)).
    set (shown := uint8 (bcd_segments v)).
    assert (Hshown : shown = Z.lor pattern 0x80).
    { subst shown pattern. unfold bcd_segments. rewrite (high_bit_mask v Hv).
      destruct (low_nibble_cases v) as (m & -> & Hm).
      destruct Hm
        as [->|[->|[->|[->|[->|[->|[->|[->|[->|[->|[->|[->|[->|[->|[->| ->]]]]]]]]]]]]]]];
        reflexivity. }
    rewrite Hshown. split; [reflexivity|]. split.
    + rewrite Z.lor_spec. change 0x80 with (2 ^ 7).
      rewrite Z.pow2_bits_eqb by lia. apply orb_true_r.
    + intros k Hk. rewrite Z.lor_spec. change 0x80 with (2 ^ 7).
      rewrite Z.pow2_bits_eqb by lia.
      replace (7 =? k) with false by (symmetry; apply Z.eqb_neq; lia).
      apply orb_false_r.
Qed.

(** The claim on digit 3 of an arbitrary display: the value 7, and the
    value 0x85 (5 with the decimal point). *)
Lemma set_digit_bcd_patterns_witness :
  shown_segments (max7219_set_digit_bcd 3 7 [0x12; 0x34; 0x56; 0x78; 0x9A; 0xBC; 0xDE; 0xF0]) 3
  = 0x07
  /\ shown_segments
       (max7219_set_digit_bcd 3 0x85 [0x12; 0x34; 0x56; 0x78; 0x9A; 0xBC; 0xDE; 0xF0]) 3
     = 0xED.
Proof.
  split.
  - apply (set_digit_bcd_patterns 3 7 [0x12; 0x34; 0x56; 0x78; 0x9A; 0xBC; 0xDE; 0xF0]);
      [lia | reflexivity | lia].
  - apply (set_digit_bcd_patterns 3 0x85 [0x12; 0x34; 0x56; 0x78; 0x9A; 0xBC; 0xDE; 0xF0]);
      [lia | reflexivity | reflexivity].
Defined.

(** C10: the digit map sends the logical digits 1..6 to the bits
    0, 4, 3, 1, 5, 2, all different; so [max7219_set_digit] on digit i
    leaves the bit of another digit j as it was in each of the eight
    planes, and two calls on different digits give the same planes in
    either order. *)
Theorem set_digit_distinct_digits (i j s t : Z) (planes : list Z) :
  1 <= i <= 6 -> 1 <= j <= 6 -> i <> j -> length planes = 8%nat ->
  map mappedDigit [1; 2; 3; 4; 5; 6] = [0; 4; 3; 1; 5; 2]
  /\ mappedDigit i <> mappedDigit j
  /\ (forall k, 0 <= k < 8 ->
        Z.testbit (array_get (max7219_set_digit i s planes) k) (mappedDigit j)
        = Z.testbit (array_get planes k) (mappedDigit j))
  /\ max7219_set_digit i s (max7219_set_digit j t planes)
     = max7219_set_digit j t (max7219_set_digit i s planes).
Proof.
  intros Hi Hj Hne Hlen.
  split; [reflexivity|]. split.
  { intros E. apply Hne. apply mappedDigit_inj; assumption. }
  split.
  - intros k Hk. apply max7219_set_digit_other_bit; assumption.
  - apply max7219_set_digit_comm; assumption.
Qed.

(** The claim on digits 2 and 5. *)
Lemma set_digit_distinct_digits_witness :
  max7219_set_digit 2 0x5B (max7219_set_digit 5 0x6D [0; 0xFF; 0x0F; 0xF0; 1; 2; 3; 4])
  = max7219_set_digit 5 0x6D (max7219_set_digit 2 0x5B [0; 0xFF; 0x0F; 0xF0; 1; 2; 3; 4]).
Proof.
  apply (set_digit_distinct_digits 2 5 0x5B 0x6D [0; 0xFF; 0x0F; 0xF0; 1; 2; 3; 4]);
    [lia | lia | lia | reflexivity].
Defined.

End PlaneFacts.

(** ** Time display, end to end *)

Section DisplayClaims.
Import Max7219 Brightness Clock.

Lemma length_max7219_set_digit_bcd (i v : Z) (planes : list Z) :
  length planes = 8%nat -> length (max7219_set_digit_bcd i v planes) = 8%nat.
Proof. apply length_max7219_set_digit. Qed.

(** What a digit shows after [max7219_set_digit_bcd] on it, and on another. *)
Lemma shown_segments_bcd_same (i v : Z) (planes : list Z) :
  1 <= i <= 6 -> length planes = 8%nat ->
  shown_segments (max7219_set_digit_bcd i v planes) i = bcd_segments v.
Proof.
  intros Hi Hlen. unfold max7219_set_digit_bcd.
  rewrite shown_segments_set_same by assumption.
  unfold bcd_segments, uint8. apply Z.mod_mod. lia.
Qed.

Lemma shown_segments_bcd_other (i j v : Z) (planes : list Z) :
  1 <= i <= 6 -> 1 <= j <= 6 -> i <> j -> length planes = 8%nat ->
  shown_segments (max7219_set_digit_bcd i v planes) j = shown_segments planes j.
Proof. apply shown_segments_set_other. Qed.

(** With the offset of +13 hours, an hour of the day stays one. *)
Lemma apply_timezone_offset_wraps (now : DateTime) :
  0 <= hour now < 24 ->
  hour (apply_timezone_offset now) = (hour now + 13) mod 24.
Proof.
  intros H. unfold apply_timezone_offset, _timezoneOffset, int8, uint8. cbn [hour].
  rewrite (Z.mod_small (hour now + 128)) by lia.
  replace (hour now + 128 - 128 + 13 + 128) with (hour now + 141) by lia.
  rewrite (Z.mod_small (hour now + 141)) by lia.
  destruct (Z.ltb_spec 23 (hour now + 141 - 128)).
  - rewrite (Z.mod_small (hour now + 141 - 128 - 24 + 128)) by lia.
    rewrite Z.mod_small by lia.
    replace (hour now + 13) with ((hour now - 11) + 1 * 24) by lia.
    rewrite Z.mod_add by lia. rewrite Z.mod_small by lia. lia.
  - destruct (Z.ltb_spec (hour now + 141 - 128) 0); [lia|].
    rewrite Z.mod_small by lia. rewrite Z.mod_small by lia. lia.
Qed.

(** The three rounds of the loop of [display_update]: six calls of
    [max7219_set_digit_bcd], tens then ones of each of the first three
    bytes of the time. *)
Lemma display_update_loop_digits (now : DateTime) (planes : list Z) :
  0 <= hour now < 256 -> 0 <= minute now < 256 -> 0 <= second now < 256 ->
  display_update_loop 3 0 1 now planes
  = max7219_set_digit_bcd 6 (second now mod 10)
      (max7219_set_digit_bcd 5 (second now / 10)
         (max7219_set_digit_bcd 4 (minute now mod 10)
            (max7219_set_digit_bcd 3 (minute now / 10)
               (max7219_set_digit_bcd 2 (hour now mod 10)
                  (max7219_set_digit_bcd 1 (hour now / 10) planes)))))
  /\ display_update_calls 3 0 1 now
     = [(1, hour now / 10); (2, hour now mod 10); (3, minute now / 10);
        (4, minute now mod 10); (5, second now / 10); (6, second now mod 10)].
Proof.
  intros Hh Hm Hs.
  cbn [display_update_loop display_update_calls].
  change (array_get (datetime_bytes now) 0) with (hour now).
  change (array_get (datetime_bytes now) (int8 (0 + 1))) with (minute now).
  change (array_get (datetime_bytes now) (int8 (int8 (0 + 1) + 1))) with (second now).
  rewrite !split_tens_byte by assumption.
  split; reflexivity.
Qed.

(** A flush between [disableInterrupts] and [enableInterrupts], run to its
    end: the eight planes go out in order, and interrupts are enabled at
    the end whatever the mask was at the start. *)
Lemma call_guarded_flush (f : memory -> memory) (mem0 : memory) (w : window) (ie : bool) :
  call ([disableInterrupts; ram f] ++ max7219_write_digits ++ [enableInterrupts]) mem0 w ie
  = Some {| mem := f mem0;
            statics := w;
            interrupts := true;
            bus := map (fun k => (MainLoop, (k + 1, uint8 (array_get (_segmentWiseData (f mem0)) k))))
                     [0; 1; 2; 3; 4; 5; 6; 7];
            code := [] |}.
Proof. reflexivity. Qed.

(** C3: the timezone adjustment writes the hour field and no other. The
    time 09:30:45 becomes 22:30:45 under the offset +13, an hour in [0,24);
    [display_update] then calls [max7219_set_digit_bcd] on the digits 1..6
    with the values 2, 2, 3, 0, 4, 5, after which the six digits show the
    patterns of these values, whatever the planes held before, and the
    flush sends the eight planes with interrupts enabled at the end. *)
Theorem timezone_then_display (d mo y wi : Z) (planes : list Z) (w : window) (ie : bool) :
  length planes = 8%nat ->
  let now := {| hour := 9; minute := 30; second := 45; day := d; month := mo; year := y |} in
  let shifted := apply_timezone_offset now in
  let planes' := display_update_loop 3 0 1 shifted planes in
  (forall t : DateTime,
     let t' := apply_timezone_offset t in
     minute t' = minute t /\ second t' = second t /\ day t' = day t
     /\ month t' = month t /\ year t' = year t)
  /\ (forall t : DateTime,
        0 <= hour t < 24 ->
        0 <= hour (apply_timezone_offset t) < 24
        /\ hour (apply_timezone_offset t) = (hour t + 13) mod 24)
  /\ shifted = {| hour := 22; minute := 30; second := 45; day := d; month := mo; year := y |}
  /\ hour shifted = (9 + 13) mod 24
  /\ display_update_calls 3 0 1 shifted = [(1, 2); (2, 2); (3, 3); (4, 0); (5, 4); (6, 5)]
  /\ map (shown_segments planes') [1; 2; 3; 4; 5; 6] = [0x5B; 0x5B; 0x4F; 0x3F; 0x66; 0x6D]
  /\ map (shown_segments planes') [1; 2; 3; 4; 5; 6] = map (array_get bcdMap) [2; 2; 3; 0; 4; 5]
  /\ call (display_update shifted) {| _segmentWiseData := planes; waitIndicator := wi |} w ie
     = Some {| mem := {| _segmentWiseData := planes'; waitIndicator := wi |};
               statics := w;
               interrupts := true;
               bus := map (fun k => (MainLoop, (k + 1, uint8 (array_get planes' k))))
                        [0; 1; 2; 3; 4; 5; 6; 7];
               code := [] |}.
Proof.
  intros Hlen now shifted planes'.
  assert (Hshift : shifted
                   = {| hour := 22; minute := 30; second := 45; day := d; month := mo; year := y |})
    by reflexivity.
  assert (Hcall :
    call (display_update shifted) {| _segmentWiseData := planes; waitIndicator := wi |} w ie
    = Some {| mem := {| _segmentWiseData := planes'; waitIndicator := wi |};
              statics := w;
              interrupts := true;
              bus := map (fun k => (MainLoop, (k + 1, uint8 (array_get planes' k))))
                       [0; 1; 2; 3; 4; 5; 6; 7];
              code := [] |}).
  { unfold display_update. rewrite call_guarded_flush. reflexivity. }
  split; [intros t; repeat split|].
  split.
  { intros t Ht. rewrite (apply_timezone_offset_wraps t Ht).
    split; [apply Z.mod_pos_bound; lia | reflexivity]. }
  split; [exact Hshift|]. split; [rewrite Hshift; reflexivity|].
  destruct (display_update_loop_digits shifted planes) as [Hp Hcalls];
    [rewrite Hshift; cbn [hour minute second]; lia ..|].
  fold planes' in Hp. clearbody planes'.
  rewrite Hshift in Hp, Hcalls. cbn [hour minute second] in Hp, Hcalls.
  change (22 / 10) with 2 in *. change (22 mod 10) with 2 in *.
  change (30 / 10) with 3 in *. change (30 mod 10) with 0 in *.
  change (45 / 10) with 4 in *. change (45 mod 10) with 5 in *.
  split; [rewrite Hshift; exact Hcalls|].
  assert (Hshown : map (shown_segments planes') [1; 2; 3; 4; 5; 6]
                   = [0x5B; 0x5B; 0x4F; 0x3F; 0x66; 0x6D]).
  { rewrite Hp. cbn [map].
    repeat (apply (f_equal2 cons); [
      repeat (rewrite shown_segments_bcd_other
                by (repeat apply length_max7219_set_digit_bcd; first [exact Hlen | lia]));
      rewrite shown_segments_bcd_same
        by (repeat apply length_max7219_set_digit_bcd; first [exact Hlen | lia]);
      reflexivity |]).
    reflexivity. }
  split; [exact Hshown|]. split; [rewrite Hshown; reflexivity|].
  exact Hcall.
Qed.

(** The claim from the display's power-on state. *)
Lemma timezone_then_display_witness :
  map (shown_segments
         (display_update_loop 3 0 1
            (apply_timezone_offset
               {| hour := 9; minute := 30; second := 45; day := 1; month := 1; year := 26 |})
            (_segmentWiseData memory_init)))
      [1; 2; 3; 4; 5; 6]
  = [0x5B; 0x5B; 0x4F; 0x3F; 0x66; 0x6D].
Proof.
  apply (timezone_then_display 1 1 26 0 (_segmentWiseData memory_init) window_init true).
  reflexivity.
Defined.

End DisplayClaims.

(** ** Brightness controller *)

Section BrightnessClaims.
Import Max7219 Brightness.

Lemma sum_app (l k : list Z) : sum (l ++ k) = sum l + sum k.
Proof. induction l as [|x l IH]; simpl; [reflexivity | rewrite IH; lia]. Qed.

Lemma sum_bound (l : list Z) :
  Forall (fun v => 0 <= v < 1024) l -> 0 <= sum l <= 1023 * Z.of_nat (length l).
Proof.
  induction 1 as [|x l Hx _ IH]; simpl sum; simpl length; lia.
Qed.

(** A right-aligned conversion result is a 10-bit value. *)
Lemma read_adc_buffer_range (adc : ADC1) :
  ten_bit adc -> 0 <= read_adc_buffer adc < 1024.
Proof.
  intros [Hl Hh]. unfold read_adc_buffer.
  rewrite (uint16_small (DRL adc)) by lia.
  assert (Hs : 0 <= Z.shiftl (DRH adc) 8 < 1024).
  { rewrite Z.shiftl_mul_pow2 by lia. change (2 ^ 8) with 256. lia. }
  assert (Hor : 0 <= Z.lor (DRL adc) (Z.shiftl (DRH adc) 8) < 1024).
  { split; [apply Z.lor_nonneg; lia|].
    destruct (Z.eq_dec (Z.lor (DRL adc) (Z.shiftl (DRH adc) 8)) 0) as [->|Hnz]; [lia|].
    assert (Hpos : 0 < Z.lor (DRL adc) (Z.shiftl (DRH adc) 8)).
    { pose proof (proj2 (Z.lor_nonneg (DRL adc) (Z.shiftl (DRH adc) 8)) ltac:(lia)). lia. }
    change 1024 with (2 ^ 10). apply Z.log2_lt_pow2; [exact Hpos|].
    rewrite Z.log2_lor by lia.
    assert (Z.log2 (DRL adc) < 10).
    { destruct (Z.eq_dec (DRL adc) 0) as [->|]; [reflexivity|].
      apply Z.log2_lt_pow2; [lia|]. change (2 ^ 10) with 1024. lia. }
    assert (Z.log2 (Z.shiftl (DRH adc) 8) < 10).
    { destruct (Z.eq_dec (Z.shiftl (DRH adc) 8) 0) as [->|]; [reflexivity|].
      apply Z.log2_lt_pow2; [lia|]. change (2 ^ 10) with 1024. lia. }
    lia. }
  rewrite uint16_small by lia. exact Hor.
Qed.

Lemma length_chronological (w : window) :
  length (chronological w) = length (averageBuffer w).
Proof.
  unfold chronological. rewrite length_app, length_drop, length_take. lia.
Qed.

Lemma sum_chronological (w : window) : sum (chronological w) = sum (averageBuffer w).
Proof.
  unfold chronological. rewrite sum_app, Z.add_comm, <- sum_app, take_drop. reflexivity.
Qed.

(** One conversion: the state stays well formed, the oldest sample leaves
    the window and the new one enters it, and one intensity command goes
    out with the sixty-fourth of the average. *)
Lemma display_adjust_brightness_step (adc : ADC1) (w : window) (bus0 : list bus_cmd) :
  window_ok w -> ten_bit adc ->
  let w' := fst (display_adjust_brightness adc w bus0) in
  window_ok w'
  /\ chronological w' = tl (chronological w) ++ [read_adc_buffer adc]
  /\ average w' = sum (averageBuffer w') / 16
  /\ snd (display_adjust_brightness adc w bus0) = bus0 ++ [(0x0A, average w' / 64)].
Proof.
  intros (Hlen & Hidx & Hall & Htotal) Hadc.
  pose proof (read_adc_buffer_range adc Hadc) as Hr.
  unfold display_adjust_brightness. cbn [fst snd].
  set (r := read_adc_buffer adc) in *.
  set (i := Z.to_nat (writeIndex w)).
  assert (Hi : (i < 16)%nat) by (subst i; lia).
  destruct (averageBuffer w !! i) as [x|] eqn:Hx.
  2:{ apply lookup_ge_None in Hx. lia. }
  assert (Hget : array_get (averageBuffer w) (writeIndex w) = x).
  { unfold array_get. fold i. rewrite Hx. reflexivity. }
  assert (Hsplit : averageBuffer w = take i (averageBuffer w) ++ x :: drop (S i) (averageBuffer w)).
  { symmetry. apply take_drop_middle. exact Hx. }
  assert (Hbuf : array_set (averageBuffer w) (writeIndex w) r
                 = take i (averageBuffer w) ++ r :: drop (S i) (averageBuffer w)).
  { unfold array_set. fold i. apply insert_take_drop. lia. }
  assert (Hall' : Forall (fun v => 0 <= v < 1024) (array_set (averageBuffer w) (writeIndex w) r)).
  { unfold array_set. apply Forall_insert; assumption. }
  assert (Hlen' : length (array_set (averageBuffer w) (writeIndex w) r) = 16%nat).
  { unfold array_set. rewrite length_insert. exact Hlen. }
  assert (Hsum : sum (array_set (averageBuffer w) (writeIndex w) r)
                 = runningTotal w - x + r).
  { rewrite Htotal, Hbuf. rewrite Hsplit at 3. rewrite !sum_app. simpl. lia. }
  assert (Htotal' : uint16 (uint16 (runningTotal w - array_get (averageBuffer w) (writeIndex w)) + r)
                    = sum (array_set (averageBuffer w) (writeIndex w) r)).
  { rewrite Hget, Hsum. unfold uint16. rewrite Zplus_mod_idemp_l.
    apply Z.mod_small. rewrite <- Hsum.
    pose proof (sum_bound _ Hall') as Hb. rewrite Hlen' in Hb. lia. }
  assert (Hidx' : uint8 ((writeIndex w + 1) mod COUNT_OF_averageBuffer)
                  = (writeIndex w + 1) mod 16).
  { unfold COUNT_OF_averageBuffer. apply uint8_small.
    pose proof (Z.mod_pos_bound (writeIndex w + 1) 16 ltac:(lia)). lia. }
  assert (Havg : average
            {| averageBuffer := array_set (averageBuffer w) (writeIndex w) r;
               writeIndex := uint8 ((writeIndex w + 1) mod COUNT_OF_averageBuffer);
               runningTotal := uint16 (uint16 (runningTotal w
                                 - array_get (averageBuffer w) (writeIndex w)) + r) |}
          = sum (array_set (averageBuffer w) (writeIndex w) r) / 16).
  { unfold average, COUNT_OF_averageBuffer. cbn [runningTotal]. rewrite Htotal'.
    pose proof (sum_bound _ Hall') as Hb. rewrite Hlen' in Hb.
    apply uint16_small. split; [apply Z.div_pos; lia|].
    apply Z.div_lt_upper_bound; lia. }
  split; [|split; [|split]].
  - unfold window_ok. cbn [averageBuffer writeIndex runningTotal].
    rewrite Hidx'. split; [exact Hlen'|]. split; [apply Z.mod_pos_bound; lia|].
    split; [exact Hall' | exact Htotal'].
  - unfold chronological. cbn [averageBuffer writeIndex]. rewrite Hidx'. fold i.
    rewrite (drop_S _ _ _ Hx). cbn [tl app].
    rewrite Hbuf.
    assert (Hti : length (take i (averageBuffer w)) = i) by (rewrite length_take; lia).
    destruct (Nat.eq_dec i 15%nat) as [Hlast|Hmid].
    + replace ((writeIndex w + 1) mod 16) with 0
        by (replace (writeIndex w) with 15 by lia; reflexivity).
      cbn [Z.to_nat drop take]. rewrite app_nil_r.
      rewrite (drop_ge (averageBuffer w) (S i)) by lia. reflexivity.
    + rewrite Z.mod_small by lia.
      replace (Z.to_nat (writeIndex w + 1)) with (S i) by lia.
      replace (take i (averageBuffer w) ++ r :: drop (S i) (averageBuffer w))
        with ((take i (averageBuffer w) ++ [r]) ++ drop (S i) (averageBuffer w))
        by (rewrite <- app_assoc; reflexivity).
      rewrite drop_app_length' by (rewrite length_app, Hti; simpl; lia).
      rewrite take_app_length' by (rewrite length_app, Hti; simpl; lia).
      rewrite app_assoc. reflexivity.
  - exact Havg.
  - unfold max7219_cmd. rewrite Havg.
    pose proof (sum_bound _ Hall') as Hb. rewrite Hlen' in Hb.
    assert (0 <= sum (array_set (averageBuffer w) (writeIndex w) r) / 16 < 1024).
    { split; [apply Z.div_pos; lia | apply Z.div_lt_upper_bound; lia]. }
    rewrite (uint8_small (_ / 64)).
    + reflexivity.
    + split; [apply Z.div_pos; lia | apply Z.div_lt_upper_bound; lia].
Qed.

Lemma window_init_ok : window_ok window_init.
Proof.
  unfold window_ok, window_init. cbn [averageBuffer writeIndex runningTotal].
  split; [reflexivity|]. split; [lia|]. split; [|reflexivity].
  apply List.Forall_forall. intros v Hv. apply repeat_spec in Hv. lia.
Qed.

Lemma average_ok (w : window) :
  window_ok w -> average w = sum (averageBuffer w) / 16.
Proof.
  intros (Hlen & _ & Hall & Htotal). unfold average, COUNT_OF_averageBuffer.
  rewrite Htotal. pose proof (sum_bound _ Hall) as Hb. rewrite Hlen in Hb.
  apply uint16_small. split; [apply Z.div_pos; lia | apply Z.div_lt_upper_bound; lia].
Qed.

(** A run of conversions: the window slides over the samples, and each
    conversion adds one command to the bus. *)
Lemma adjust_all_window (adcs : list ADC1) :
  forall (w : window) (bus0 : list bus_cmd),
    window_ok w -> Forall ten_bit adcs ->
    window_ok (fst (adjust_all adcs w bus0))
    /\ chronological (fst (adjust_all adcs w bus0))
       = drop (length adcs) (chronological w ++ map read_adc_buffer adcs)
    /\ length (snd (adjust_all adcs w bus0)) = (length bus0 + length adcs)%nat.
Proof.
  induction adcs as [|adc rest IH]; intros w bus0 Hw Hall.
  - cbn [adjust_all fst snd length map drop]. rewrite app_nil_r.
    split; [exact Hw|]. split; [reflexivity | lia].
  - apply Forall_cons in Hall. destruct Hall as [Hadc Hrest].
    destruct (display_adjust_brightness_step adc w bus0 Hw Hadc) as (Hw' & Hchron & _ & Hbus).
    cbn [adjust_all].
    destruct (display_adjust_brightness adc w bus0) as [w' bus'] eqn:Hstep.
    cbn [fst snd] in Hw', Hchron, Hbus.
    destruct (IH w' bus' Hw' Hrest) as (Hok & Hslide & Hcount).
    split; [exact Hok|]. split.
    + rewrite Hslide, Hchron.
      pose proof (length_chronological w) as Hl.
      destruct Hw as (Hlen & _). rewrite Hlen in Hl.
      destruct (chronological w) as [|x t]; [discriminate Hl|].
      cbn [tl length map drop app]. rewrite <- app_assoc. reflexivity.
    + rewrite Hcount, Hbus, length_app. cbn [length]. lia.
Qed.

(** C7: with 10-bit samples, from the zeroed start-up state and after any
    number of conversions, the running total is the sum of the sixteen
    samples in the buffer, and these are the last sixteen of the start-up
    zeros followed by the samples taken. After exactly sixteen samples the
    average is the floor of their sum over sixteen; from sixteen samples on
    the window and the total are those of the sixteen most recent samples,
    no older one contributing. Every conversion keeps the total equal to the
    sum and issues one intensity command, with the value average / 64. *)
Theorem brightness_window (adcs : list ADC1) (adc : ADC1) (bus0 : list bus_cmd) :
  Forall ten_bit adcs -> ten_bit adc ->
  let samples := map read_adc_buffer adcs in
  let n := length adcs in
  let w := fst (adjust_all adcs window_init []) in
  let bus := snd (adjust_all adcs window_init []) in
  let w' := fst (display_adjust_brightness adc w bus0) in
  runningTotal w = sum (averageBuffer w)
  /\ chronological w = drop n (repeat 0 16 ++ samples)
  /\ average w = sum (averageBuffer w) / 16
  /\ (n = 16%nat -> average w = sum samples / 16)
  /\ ((16 <= n)%nat ->
      chronological w = drop (n - 16) samples
      /\ runningTotal w = sum (drop (n - 16) samples))
  /\ length bus = n
  /\ runningTotal w' = sum (averageBuffer w')
  /\ chronological w' = tl (chronological w) ++ [read_adc_buffer adc]
  /\ average w' = sum (averageBuffer w') / 16
  /\ snd (display_adjust_brightness adc w bus0) = bus0 ++ [(0x0A, average w' / 64)].
Proof.
  intros Hall Hadc samples n w bus w'.
  destruct (adjust_all_window adcs window_init [] window_init_ok Hall) as (Hok & Hslide & Hcount).
  fold w in Hok, Hslide. fold bus in Hcount.
  change (chronological window_init) with (repeat 0 16 ++ []) in Hslide.
  rewrite app_nil_r in Hslide. fold samples n in Hslide.
  assert (Hrecent : (16 <= n)%nat -> chronological w = drop (n - 16) samples).
  { intros Hn. rewrite Hslide. rewrite drop_app_ge by (rewrite repeat_length; lia).
    rewrite repeat_length. reflexivity. }
  assert (Htotal : runningTotal w = sum (chronological w)).
  { rewrite sum_chronological. apply Hok. }
  destruct (display_adjust_brightness_step adc w bus0 Hok Hadc) as (Hok' & Hchron' & Havg' & Hbus').
  fold w' in Hok', Hchron', Havg', Hbus'.
  split; [apply Hok|]. split; [exact Hslide|]. split; [apply average_ok, Hok|].
  split.
  { intros Hn. rewrite (average_ok w Hok), <- sum_chronological, Hrecent by lia.
    rewrite Hn. reflexivity. }
  split.
  { intros Hn. split; [apply Hrecent, Hn|]. rewrite Htotal, Hrecent by exact Hn. reflexivity. }
  split; [exact Hcount|]. split; [apply Hok'|].
  split; [exact Hchron'|]. split; [exact Havg' | exact Hbus'].
Qed.

(** Why the samples are taken to be 10-bit: were the high register to hold
    eight significant bits, sixteen readings of 0xFFFF would make the
    16-bit total wrap around and differ from the sum of the window. *)
Remark total_wraps_beyond_adc_range :
  let w := fst (adjust_all (repeat (Adc 0xFF 0xFF) 16) window_init []) in
  runningTotal w = 65520 /\ sum (averageBuffer w) = 1048560.
Proof. vm_compute. split; reflexivity. Qed.

(** Seventeen conversions, the first one the brightest: after the
    seventeenth it has left the window. *)
Lemma brightness_window_witness :
  let adcs := Adc 0xFF 3 :: repeat (Adc 100 0) 16 in
  runningTotal (fst (adjust_all adcs window_init [])) = 1600.
Proof.
  intros adcs.
  assert (Hall : Forall ten_bit adcs).
  { apply List.Forall_forall. intros a Ha. destruct Ha as [<-|Ha].
    - unfold ten_bit. simpl. lia.
    - apply repeat_spec in Ha. subst a. unfold ten_bit. simpl. lia. }
  assert (Hadc : ten_bit (Adc 0 0)) by (unfold ten_bit; simpl; lia).
  destruct (brightness_window adcs (Adc 0 0) [] Hall Hadc) as (_ & _ & _ & _ & Hrecent & _).
  destruct (Hrecent ltac:(simpl; lia)) as [_ Htotal].
  exact Htotal.
Defined.

End BrightnessClaims.

(** ** Byte queue *)

Section QueueClaims.
Import Queue.
Variable capacity : Z.

Lemma appended_app (es es' : list event) : appended (es ++ es') = appended es ++ appended es'.
Proof.
  induction es as [|[b|] es IH]; simpl; [reflexivity | rewrite IH; reflexivity | exact IH].
Qed.

(** What holds of the reader after any events during which no more bytes
    arrive than the buffer has room for: the bytes appended so far fill the
    first slots of the array, both indices count modulo the capacity, and
    the bytes returned so far are the first of those appended. *)
Lemma run_invariant (es : list event) :
  Z.of_nat (length (appended es)) <= capacity ->
  let r := run capacity es (reader_init capacity) in
  let n := length (appended es) in
  let k := length (returned r) in
  length (data (_uartBuffer r)) = Z.to_nat capacity
  /\ take n (data (_uartBuffer r)) = appended es
  /\ writeIndex (_uartBuffer r) = Z.of_nat n mod capacity
  /\ readIndex (_uartBuffer r) = Z.of_nat k mod capacity
  /\ returned r = take k (appended es)
  /\ (k <= n)%nat
  /\ (at_pc r = Popping -> (k < n)%nat).
Proof.
  induction es as [|e es IH] using rev_ind; intros Hcap.
  - cbn. rewrite repeat_length.
    repeat split; try reflexivity; try lia; try discriminate.
  - rewrite appended_app, length_app in Hcap.
    unfold run in *. rewrite fold_left_app. cbn [fold_left].
    rewrite appended_app, length_app.
    specialize (IH ltac:(lia)). cbv zeta in IH.
    set (r := fold_left (step capacity) es (reader_init capacity)) in *.
    set (n := length (appended es)) in *.
    set (k := length (returned r)) in *.
    destruct IH as (Hlen & Hdata & Hw & Hr & Hret & Hkn & Hpop).
    destruct e as [byte|]; cbn [step appended length]; cbn [appended length] in Hcap.
    + (* a byte arrives *)
      unfold uart1_receive_irq, circbuf_append.
      cbn [_uartBuffer data readIndex writeIndex returned at_pc].
      assert (Hwn : writeIndex (_uartBuffer r) = Z.of_nat n).
      { rewrite Hw. apply Z.mod_small. lia. }
      unfold array_set. rewrite Hwn, Nat2Z.id.
      split; [rewrite length_insert; exact Hlen|]. split.
      { replace (n + 1)%nat with (S n) by lia.
        rewrite (take_S_r _ _ (uint8 byte)).
        - rewrite take_insert_ge by lia. rewrite Hdata. reflexivity.
        - apply list_lookup_insert_eq. lia. }
      split.
      { f_equal. lia. }
      split; [exact Hr|]. split.
      { rewrite take_app_le by (fold n; lia). exact Hret. }
      split; [lia|]. intros Hp. specialize (Hpop Hp). lia.
    + (* the main context takes a step *)
      rewrite Nat.add_0_r, app_nil_r.
      unfold uart_read_byte_step.
      destruct (at_pc r) eqn:Hpc.
      * unfold circbuf_is_empty.
        destruct (Z.eqb_spec (writeIndex (_uartBuffer r)) (readIndex (_uartBuffer r))) as [Heq|Hne].
        { fold k. rewrite Hpc. repeat split; assumption. }
        cbn [_uartBuffer returned at_pc]. fold k.
        repeat split; try assumption.
        destruct (Nat.eq_dec k n) as [E|]; [|lia].
        exfalso. apply Hne. rewrite Hw, Hr, E. reflexivity.
      * specialize (Hpop eq_refl).
        unfold circbuf_pop.
        cbn [_uartBuffer data readIndex writeIndex returned at_pc].
        assert (Hrk : readIndex (_uartBuffer r) = Z.of_nat k).
        { rewrite Hr. apply Z.mod_small. lia. }
        assert (Hget : appended es !! k = Some (array_get (data (_uartBuffer r)) (readIndex (_uartBuffer r)))).
        { unfold array_get. rewrite Hrk, Nat2Z.id.
          rewrite <- Hdata, lookup_take_lt by lia.
          destruct (data (_uartBuffer r) !! k) eqn:Hd; [reflexivity|].
          apply lookup_ge_None in Hd. lia. }
        rewrite length_app. cbn [length].
        split; [exact Hlen|]. split; [exact Hdata|]. split; [exact Hw|].
        split; [rewrite Hrk; f_equal; lia|]. split.
        { replace (length (returned r) + 1)%nat with (S k) by (fold k; lia).
          rewrite (take_S_r _ _ _ Hget). rewrite <- Hret. reflexivity. }
        split; [fold k; lia | discriminate].
Qed.

Lemma length_appends (ops : list op) : (length (appends ops) <= length ops)%nat.
Proof. induction ops as [|[byte|] ops IH]; simpl; lia. Qed.

(** The queue under its two operations, from any state in which the bytes
    appended so far sit in the first slots of the array. *)
Lemma apply_ops_invariant (ops : list op) :
  forall (b : CircBuf) (popped arrived : list Z),
    let n := length arrived in
    let k := length popped in
    length (data b) = Z.to_nat capacity ->
    take n (data b) = arrived ->
    writeIndex b = Z.of_nat n mod capacity ->
    readIndex b = Z.of_nat k mod capacity ->
    popped = take k arrived ->
    (k <= n)%nat ->
    Z.of_nat (n + length (appends ops)) <= capacity ->
    pops_follow_appends (n - k) ops = true ->
    let popped' := snd (apply_ops capacity ops b popped) in
    popped' = take (length popped') (arrived ++ appends ops)
    /\ length popped' = (k + (length ops - length (appends ops)))%nat.
Proof.
  induction ops as [|[byte|] ops IH]; intros b popped arrived n k Hlen Hdata Hw Hr Hpop Hkn Hcap Hok.
  - cbn [apply_ops snd appends length]. rewrite app_nil_r. fold k. split; [exact Hpop | lia].
  - cbn [apply_ops appends length] in *.
    assert (Hwn : writeIndex b = Z.of_nat n) by (rewrite Hw; apply Z.mod_small; lia).
    specialize (IH (circbuf_append capacity b byte) popped (arrived ++ [byte])).
    rewrite length_app in IH. cbn [length] in IH. fold n k in IH.
    unfold circbuf_append in IH at 1 2 3 4.
    cbn [data writeIndex readIndex] in IH.
    unfold array_set in IH. rewrite Hwn, Nat2Z.id in IH.
    destruct IH as [IH1 IH2].
    + rewrite length_insert. exact Hlen.
    + replace (n + 1)%nat with (S n) by lia.
      rewrite (take_S_r _ _ byte).
      * rewrite take_insert_ge by lia. rewrite Hdata. reflexivity.
      * apply list_lookup_insert_eq. lia.
    + f_equal. lia.
    + exact Hr.
    + rewrite take_app_le by (fold n; lia). exact Hpop.
    + lia.
    + lia.
    + replace (n + 1 - k)%nat with (S (n - k)) by lia. exact Hok.
    + rewrite <- app_assoc in IH1. cbn [app] in IH1.
      split; [exact IH1 | lia].
  - cbn [apply_ops appends length pops_follow_appends] in *.
    destruct (n - k)%nat as [|p] eqn:Hp; [discriminate Hok|].
    assert (Hrk : readIndex b = Z.of_nat k) by (rewrite Hr; apply Z.mod_small; lia).
    assert (Hget : arrived !! k = Some (array_get (data b) (readIndex b))).
    { unfold array_get. rewrite Hrk, Nat2Z.id.
      rewrite <- Hdata, lookup_take_lt by lia.
      destruct (data b !! k) eqn:Hd; [reflexivity|].
      apply lookup_ge_None in Hd. lia. }
    unfold circbuf_pop.
    specialize (IH {| data := data b; readIndex := (readIndex b + 1) mod capacity;
                      writeIndex := writeIndex b |}
                   (popped ++ [array_get (data b) (readIndex b)]) arrived).
    rewrite length_app in IH. cbn [length data readIndex writeIndex] in IH. fold n k in IH.
    destruct IH as [IH1 IH2]; try assumption.
    + rewrite Hrk. f_equal. lia.
    + replace (k + 1)%nat with (S k) by lia.
      rewrite (take_S_r _ _ _ Hget), <- Hpop. reflexivity.
    + lia.
    + replace (n - (k + 1))%nat with p by lia. exact Hok.
    + pose proof (length_appends ops). split; [exact IH1 | lia].
Qed.

(** C9: take N appends and M pops in any order in which no pop comes
    before the append of its byte, with N at most the capacity: from the
    empty queue the M pops return the first M of the bytes appended, in the
    order of their appending. The queue counts as empty exactly when its
    two indices are equal. And with the receive interrupt appending and
    [uart_read_byte] reading, in any interleaving during which no more bytes
    arrive than the capacity: the bytes [uart_read_byte] has returned are
    the first of those that arrived, in order; at its loop test it goes
    round without effect while the queue is empty, and once the queue is
    not empty the call returns the oldest byte not yet returned. *)
Theorem byte_queue_fifo (ops : list op) (es : list event) (b : CircBuf) :
  Z.of_nat (length (appends ops)) <= capacity ->
  pops_follow_appends 0 ops = true ->
  Z.of_nat (length (appended es)) <= capacity ->
  let popped := snd (apply_ops capacity ops (circbuf_init capacity) []) in
  let M := (length ops - length (appends ops))%nat in
  let r := run capacity es (reader_init capacity) in
  let k := length (returned r) in
  (length popped = M /\ popped = take M (appends ops))
  /\ (circbuf_is_empty b = true <-> writeIndex b = readIndex b)
  /\ ((k <= length (appended es))%nat /\ returned r = take k (appended es))
  /\ (at_pc r = Polling -> circbuf_is_empty (_uartBuffer r) = true ->
      uart_read_byte_step capacity r = r)
  /\ (at_pc r = Polling -> circbuf_is_empty (_uartBuffer r) = false ->
      exists byte,
        appended es !! k = Some byte
        /\ returned (uart_read_byte_step capacity (uart_read_byte_step capacity r))
           = returned r ++ [byte]).
Proof.
  intros Hops Hfollow Hcap popped M r k.
  split.
  { destruct (apply_ops_invariant ops (circbuf_init capacity) [] []) as [Hpopped Hcount].
    - cbn [circbuf_init data]. apply repeat_length.
    - reflexivity.
    - reflexivity.
    - reflexivity.
    - reflexivity.
    - cbn [length]. lia.
    - cbn [length]. lia.
    - exact Hfollow.
    - fold popped in Hpopped, Hcount. cbn [length app Nat.add] in Hpopped, Hcount.
      fold M in Hcount. split; [exact Hcount|]. rewrite Hcount in Hpopped. exact Hpopped. }
  destruct (run_invariant es Hcap) as (_ & _ & _ & _ & Hret & Hkn & _).
  fold r in Hret, Hkn. fold k in Hret, Hkn.
  split.
  { unfold circbuf_is_empty. apply Z.eqb_eq. }
  split; [split; [exact Hkn | exact Hret]|].
  split.
  { intros Hpc Hempty. unfold uart_read_byte_step. rewrite Hpc, Hempty. reflexivity. }
  intros Hpc Hfull.
  assert (Hcap2 : Z.of_nat (length (appended (es ++ [Step; Step]))) <= capacity).
  { rewrite appended_app, length_app. cbn [appended length]. lia. }
  destruct (run_invariant (es ++ [Step; Step]) Hcap2) as (_ & _ & _ & _ & Hret2 & Hkn2 & _).
  rewrite appended_app in Hret2, Hkn2. cbn [appended] in Hret2, Hkn2.
  rewrite app_nil_r in Hret2, Hkn2.
  unfold run in Hret2, Hkn2. rewrite fold_left_app in Hret2, Hkn2.
  cbn [fold_left step] in Hret2, Hkn2.
  change (fold_left (step capacity) es (reader_init capacity)) with r in Hret2, Hkn2.
  assert (Hsteps : uart_read_byte_step capacity (uart_read_byte_step capacity r)
                   = {| _uartBuffer := snd (circbuf_pop capacity (_uartBuffer r));
                        at_pc := Polling;
                        returned := returned r ++ [fst (circbuf_pop capacity (_uartBuffer r))] |}).
  { unfold uart_read_byte_step at 2. rewrite Hpc, Hfull.
    unfold uart_read_byte_step. cbn [at_pc _uartBuffer returned]. reflexivity. }
  rewrite Hsteps in Hret2, Hkn2 |- *. cbn [returned] in Hret2, Hkn2 |- *.
  exists (fst (circbuf_pop capacity (_uartBuffer r))).
  split; [|reflexivity].
  rewrite length_app in Hret2, Hkn2. cbn [length] in Hret2, Hkn2. fold k in Hret2, Hkn2.
  apply (f_equal (fun l => l !! k)) in Hret2.
  rewrite lookup_app_r in Hret2 by (fold k; lia).
  fold k in Hret2. rewrite Nat.sub_diag in Hret2. cbn [lookup list_lookup] in Hret2.
  rewrite lookup_take_lt in Hret2 by lia. symmetry. exact Hret2.
Qed.

End QueueClaims.

(** The claim on a buffer of four bytes. Four appends, as many as the
    buffer has slots, with a pop after the second: the four pops return the
    four bytes in order. And with the interrupt and the reader: three bytes
    arrive, two before the first read; two reads return the first two. *)
Lemma byte_queue_fifo_witness :
  let ops := [Queue.Append 1; Queue.Append 2; Queue.Pop; Queue.Append 3; Queue.Append 4;
              Queue.Pop; Queue.Pop; Queue.Pop] in
  let es := [Queue.Receive 0x24; Queue.Receive 0x47; Queue.Step; Queue.Step;
             Queue.Receive 0x50; Queue.Step; Queue.Step] in
  snd (Queue.apply_ops 4 ops (Queue.circbuf_init 4) []) = [1; 2; 3; 4]
  /\ Queue.returned (Queue.run 4 es (Queue.reader_init 4)) = [0x24; 0x47].
Proof.
  intros ops es.
  destruct (byte_queue_fifo 4 ops es (Queue.circbuf_init 4)) as ((_ & H1) & _ & (_ & H2) & _).
  - simpl. lia.
  - reflexivity.
  - simpl. lia.
  - split; [exact H1 | exact H2].
Defined.

(** ** The display bus between the main context and the interrupt *)

Section BusClaims.
Import Max7219 Brightness Clock.

Lemma adc_irq_bus (adc : ADC1) (m : machine) :
  exists issued,
    bus (adc_irq adc m) = bus m ++ issued
    /\ forallb from_interrupt issued = true
    /\ code (adc_irq adc m) = code m
    /\ interrupts (adc_irq adc m) = interrupts m.
Proof.
  unfold adc_irq.
  destruct (display_adjust_brightness adc (statics m) []) as [w issued].
  exists (map (pair Interrupt) issued). cbn [bus code interrupts].
  repeat split. induction issued as [|c issued IH]; [reflexivity | exact IH].
Qed.

(** A quiet step puts at most one command on the bus, in the name of the
    main context, and leaves the mask as it is. *)
Lemma exec_quiet (i : instr) (m : machine) (rest : list instr) :
  quiet i = true ->
  exists issued,
    bus (exec i m rest) = bus m ++ issued
    /\ forallb from_main issued = true
    /\ code (exec i m rest) = rest
    /\ interrupts (exec i m rest) = interrupts m.
Proof.
  destruct i as [| |f|address data]; intros Hq; try discriminate Hq.
  - exists []. cbn. rewrite app_nil_r. repeat split.
  - eexists. cbn [exec bus code interrupts]. repeat split.
Qed.

(** Once the main context has nothing left to run, the bus sees the
    interrupt handler only. *)
Lemma run_idle (es : list event) :
  forall (m m' : machine),
    code m = [] -> run es m = Some m' ->
    exists irqs,
      bus m' = bus m ++ irqs /\ forallb from_interrupt irqs = true
      /\ code m' = [] /\ interrupts m' = interrupts m.
Proof.
  induction es as [|e es IH]; intros m m' Hcode Hrun.
  - injection Hrun as <-. exists []. rewrite app_nil_r. repeat split. exact Hcode.
  - cbn [run] in Hrun. destruct e as [|adc]; cbn [step] in Hrun.
    + rewrite Hcode in Hrun. discriminate Hrun.
    + destruct (interrupts m) eqn:Hie; [|discriminate Hrun].
      destruct (adc_irq_bus adc m) as (issued & Hbus & Hirq & Hc & Hi).
      destruct (IH _ _ ltac:(rewrite Hc; exact Hcode) Hrun) as (irqs & Hbus' & Hirqs & Hc' & Hi').
      exists (issued ++ irqs). rewrite Hbus', Hbus, <- app_assoc.
      rewrite forallb_app, Hirq, Hirqs. repeat split; [exact Hc'|].
      rewrite Hi', Hi. exact Hie.
Qed.

(** With interrupts masked up to a final [enableInterrupts], the commands of
    the main context come in one block; the handler's come after it. *)
Lemma run_masked (es : list event) :
  forall (m m' : machine) (c : list instr),
    interrupts m = false -> code m = c ++ [enableInterrupts] -> forallb quiet c = true ->
    run es m = Some m' ->
    exists mains irqs,
      bus m' = bus m ++ mains ++ irqs
      /\ forallb from_main mains = true /\ forallb from_interrupt irqs = true
      /\ (code m' = [] -> interrupts m' = true).
Proof.
  induction es as [|e es IH]; intros m m' c Hie Hcode Hq Hrun.
  - injection Hrun as <-. exists [], []. rewrite app_nil_r. repeat split.
    intros Hnil. rewrite Hcode in Hnil. destruct c; discriminate Hnil.
  - cbn [run] in Hrun. destruct e as [|adc]; cbn [step] in Hrun.
    2:{ rewrite Hie in Hrun. discriminate Hrun. }
    rewrite Hcode in Hrun. destruct c as [|i c]; cbn [app] in Hrun.
    + destruct (run_idle es (exec enableInterrupts m []) m' eq_refl Hrun)
        as (irqs & Hbus & Hirqs & Hc & Hi).
      exists [], irqs. cbn [exec bus interrupts app] in *.
      repeat split; auto.
    + cbn [forallb] in Hq. apply andb_prop in Hq. destruct Hq as [Hqi Hqc].
      destruct (exec_quiet i m (c ++ [enableInterrupts]) Hqi) as (issued & Hbus & Hmain & Hc & Hi).
      destruct (IH _ _ c ltac:(rewrite Hi; exact Hie) Hc Hqc Hrun)
        as (mains & irqs & Hbus' & Hmains & Hirqs & Hdone).
      exists (issued ++ mains), irqs. rewrite Hbus', Hbus, <- !app_assoc.
      rewrite forallb_app, Hmain, Hmains. repeat split; auto.
Qed.

(** A guarded program: handler commands, then the block of the main
    context, then handler commands again. *)
Lemma run_guarded (es : list event) :
  forall (m m' : machine) (c : list instr),
    code m = disableInterrupts :: c ++ [enableInterrupts] -> forallb quiet c = true ->
    run es m = Some m' ->
    exists before mains after,
      bus m' = bus m ++ before ++ mains ++ after
      /\ forallb from_interrupt before = true /\ forallb from_main mains = true
      /\ forallb from_interrupt after = true
      /\ (code m' = [] -> interrupts m' = true).
Proof.
  induction es as [|e es IH]; intros m m' c Hcode Hq Hrun.
  - injection Hrun as <-. exists [], [], []. rewrite app_nil_r. repeat split.
    intros Hnil. rewrite Hcode in Hnil. discriminate Hnil.
  - cbn [run] in Hrun. destruct e as [|adc]; cbn [step] in Hrun.
    + rewrite Hcode in Hrun.
      destruct (run_masked es (exec disableInterrupts m (c ++ [enableInterrupts])) m' c
                  eq_refl eq_refl Hq Hrun)
        as (mains & irqs & Hbus & Hmains & Hirqs & Hdone).
      exists [], mains, irqs. cbn [exec bus app] in *. repeat split; auto.
    + destruct (interrupts m) eqn:Hie; [|discriminate Hrun].
      destruct (adc_irq_bus adc m) as (issued & Hbus & Hirq & Hc & Hi).
      destruct (IH _ _ c ltac:(rewrite Hc; exact Hcode) Hq Hrun)
        as (before & mains & after & Hbus' & Hbefore & Hmains & Hafter & Hdone).
      exists (issued ++ before), mains, after. rewrite Hbus', Hbus, <- !app_assoc.
      rewrite forallb_app, Hirq, Hbefore. repeat split; auto.
Qed.

Lemma skip_interrupt_app (before rest : list (origin * bus_cmd)) :
  forallb from_interrupt before = true ->
  skip_interrupt (before ++ rest) = skip_interrupt rest.
Proof.
  induction before as [|c before IH]; intros H; [reflexivity|].
  cbn [forallb] in H. apply andb_prop in H. destruct H as [Hc H].
  cbn [app skip_interrupt]. unfold from_interrupt in Hc.
  destruct (from_main c); [discriminate Hc | apply IH, H].
Qed.

Lemma skip_main_app (mains rest : list (origin * bus_cmd)) :
  forallb from_main mains = true ->
  skip_main (mains ++ rest) = skip_main rest.
Proof.
  induction mains as [|c mains IH]; intros H; [reflexivity|].
  cbn [forallb] in H. apply andb_prop in H. destruct H as [Hc H].
  cbn [app skip_main]. rewrite Hc. apply IH, H.
Qed.

Lemma flush_unbroken_blocks (before mains after : list (origin * bus_cmd)) :
  forallb from_interrupt before = true -> forallb from_main mains = true ->
  forallb from_interrupt after = true ->
  flush_unbroken (before ++ mains ++ after) = true.
Proof.
  intros Hb Hm Ha. unfold flush_unbroken.
  rewrite (skip_interrupt_app before) by exact Hb.
  destruct mains as [|c mains].
  - cbn [app]. clear Hm.
    induction after as [|a after IH]; [reflexivity|].
    cbn [forallb] in Ha. apply andb_prop in Ha. destruct Ha as [Hc Ha].
    cbn [skip_interrupt]. unfold from_interrupt in Hc.
    destruct (from_main a); [discriminate Hc | apply IH, Ha].
  - cbn [forallb] in Hm. apply andb_prop in Hm. destruct Hm as [Hc Hm].
    cbn [app skip_interrupt]. rewrite Hc. cbn [skip_main]. rewrite Hc.
    rewrite (skip_main_app mains) by exact Hm.
    destruct after as [|a after]; [reflexivity|].
    cbn [forallb] in Ha. apply andb_prop in Ha. destruct Ha as [Hca Ha].
    cbn [skip_main]. unfold from_interrupt in Hca.
    destruct (from_main a) eqn:Hfa; [discriminate Hca|].
    cbn [forallb]. unfold from_interrupt at 1. rewrite Hfa, Ha. reflexivity.
Qed.

(** The time display is guarded as its comment says: however the conversion
    interrupt falls, no handler command comes between two commands of the
    flush of [display_update], and when [display_update] is done interrupts
    are enabled, whatever the mask was before. *)
Lemma display_update_flush_unbroken
      (now : DateTime) (mem0 : memory) (w : window) (ie : bool) (es : list event) (m' : machine) :
  run es (start (display_update now) mem0 w ie) = Some m' ->
  flush_unbroken (bus m') = true /\ (code m' = [] -> interrupts m' = true).
Proof.
  intros Hrun.
  destruct (run_guarded es (start (display_update now) mem0 w ie) m'
              (ram (on_planes (display_update_loop 3 0 1 now)) :: max7219_write_digits)
              eq_refl eq_refl Hrun)
    as (before & mains & after & Hbus & Hb & Hm & Ha & Hdone).
  cbn [start bus app] in Hbus. rewrite Hbus.
  split; [apply flush_unbroken_blocks; assumption | exact Hdone].
Qed.

(** C1: [display_no_signal] flushes with the interrupt mask untouched. Run
    from start-up with interrupts enabled, as [main] calls it, with one
    conversion completing after the first plane command: the handler's
    intensity command (address 0x0A) goes out between the commands for
    plane 1 and plane 2, so the flush is not one block on the bus. *)
Theorem display_no_signal_flush_broken :
  let es := [Step; Step; Step; Step; Conversion (Adc 0xFF 3);
             Step; Step; Step; Step; Step; Step; Step] in
  exists m',
    run es (start display_no_signal memory_init window_init true) = Some m'
    /\ code m' = []
    /\ bus m' = [(MainLoop, (1, 0)); (Interrupt, (0x0A, 0)); (MainLoop, (2, 0));
                 (MainLoop, (3, 0)); (MainLoop, (4, 0)); (MainLoop, (5, 0));
                 (MainLoop, (6, 0)); (MainLoop, (7, 0)); (MainLoop, (8, 1))]
    /\ flush_unbroken (bus m') = false.
Proof.
  intros es. eexists. split; [vm_compute; reflexivity|].
  cbn [code bus]. repeat split.
Qed.

End BusClaims.

(** * Further properties of the code *)

(** ** Serial transport, checksum and frames *)

Section WireProperties.
Import Uart Ubx Fletcher.

(** [uart_send_stream_blocking] appends to the wire, in order, the first
    [length mod 256] bytes it is given, its counter being 8 bits wide; what
    was sent before stays as it was, and two calls in a row send the two
    byte sequences one after the other. *)
Theorem uart_send_stream_appends (tx a b : list Z) (length_a : Z) :
  0 <= length_a -> (Z.to_nat (length_a mod 256) <= length a)%nat ->
  Z.of_nat (length b) <= 255 ->
  uart_send_stream_blocking tx a length_a = tx ++ take (Z.to_nat (length_a mod 256)) a
  /\ uart_send_stream_blocking tx a 256 = tx
  /\ uart_send_stream_blocking (uart_send_stream_blocking tx a length_a) b (Z.of_nat (length b))
     = tx ++ take (Z.to_nat (length_a mod 256)) a ++ b.
Proof.
  intros Ha Hfit Hb.
  assert (H1 : uart_send_stream_blocking tx a length_a
               = tx ++ take (Z.to_nat (length_a mod 256)) a).
  { unfold uart_send_stream_blocking, uint8. apply uart_send_stream_loop_take. exact Hfit. }
  split; [exact H1|]. split; [reflexivity|].
  rewrite H1. unfold uart_send_stream_blocking.
  rewrite uint8_small by lia. rewrite Nat2Z.id.
  rewrite uart_send_stream_loop_take by lia.
  rewrite firstn_all, <- app_assoc. reflexivity.
Qed.

Lemma uart_send_stream_appends_witness :
  uart_send_stream_blocking [0xB5] [1; 2; 3] 258 = [0xB5; 1; 2].
Proof.
  apply (uart_send_stream_appends [0xB5] [1; 2; 3] [] 258);
    [lia | vm_compute; lia | vm_compute; discriminate].
Defined.

Lemma fold_checksum_app (c : checksum) (d1 d2 : list Z) :
  fold_left ubx_update_checksum (d1 ++ d2) c
  = fold_left ubx_update_checksum d2 (fold_left ubx_update_checksum d1 c).
Proof. apply fold_left_app. Qed.

(** The checksum can be computed piecewise: continuing from the checksum of
    a first block with a second block gives the checksum of the two blocks
    put end to end. This is how [ubx_send] covers header and payload. *)
Theorem checksum_of_blocks (c : checksum) (d1 d2 : list Z) :
  Z.of_nat (length d1 + length d2) <= 65535 ->
  ubx_update_checksum_multi
    (ubx_update_checksum_multi c d1 (Z.of_nat (length d1))) d2 (Z.of_nat (length d2))
  = ubx_update_checksum_multi c (d1 ++ d2) (Z.of_nat (length d1 + length d2)).
Proof.
  intros Hlen.
  rewrite !ubx_update_checksum_multi_fold by (rewrite ?length_app; lia).
  rewrite !firstn_all.
  replace (length d1 + length d2)%nat with (length (d1 ++ d2)) by apply length_app.
  rewrite firstn_all. symmetry. apply fold_checksum_app.
Qed.

Lemma checksum_of_blocks_witness :
  ubx_update_checksum_multi (ubx_update_checksum_multi (0, 0) [6; 0x31] 2) [32; 0; 7] 3
  = ubx_update_checksum_multi (0, 0) [6; 0x31; 32; 0; 7] 5.
Proof. apply (checksum_of_blocks (0, 0) [6; 0x31] [32; 0; 7]). simpl. lia. Defined.

Lemma mod_256_shift (x y k : Z) : x = y + k * 256 -> x mod 256 = y mod 256.
Proof. intros ->. apply Z_mod_plus_full. Qed.

(** The fold in closed form, from any accumulator. *)
Lemma fold_checksum_closed (l : list Z) :
  forall a b : Z,
    fold_left ubx_update_checksum l (a, b)
    = match l with
      | [] => (a, b)
      | _ => ((a + Brightness.sum l) mod 256,
              (b + Z.of_nat (length l) * a + weighted l) mod 256)
      end.
Proof.
  induction l as [|x l IH]; intros a b; [reflexivity|].
  cbn [fold_left].
  change (ubx_update_checksum (a, b) x) with (uint8 (a + x), uint8 (b + uint8 (a + x))).
  rewrite IH. unfold uint8.
  destruct l as [|y l].
  - cbn [Brightness.sum fold_right weighted length]. f_equal.
    + f_equal. lia.
    + pose proof (Z.div_mod (a + x) 256 ltac:(lia)) as Hd.
      apply (mod_256_shift _ _ (- ((a + x) / 256))). cbn [Z.of_nat]. lia.
  - set (l' := y :: l) in *.
    pose proof (Z.div_mod (a + x) 256 ltac:(lia)) as Hd.
    pose proof (Z.div_mod (b + (a + x) mod 256) 256 ltac:(lia)) as He.
    f_equal.
    + apply (mod_256_shift _ _ (- ((a + x) / 256))).
      change (Brightness.sum (x :: l')) with (x + Brightness.sum l'). lia.
    + apply (mod_256_shift _ _
               (- ((b + (a + x) mod 256) / 256)
                - (Z.of_nat (length l') + 1) * ((a + x) / 256))).
      change (weighted (x :: l')) with ((Z.of_nat (length l') + 1) * x + weighted l').
      change (length (x :: l')) with (S (length l')).
      rewrite Nat2Z.inj_succ. nia.
Qed.

Lemma checksum_multi_closed (data : list Z) (n : nat) :
  (1 <= n <= length data)%nat -> Z.of_nat n <= 65535 ->
  ubx_update_checksum_multi (0, 0) data (Z.of_nat n)
  = (Brightness.sum (take n data) mod 256, weighted (take n data) mod 256).
Proof.
  intros Hn Hmax.
  rewrite ubx_update_checksum_multi_fold by lia.
  rewrite fold_checksum_closed.
  destruct (take n data) as [|x l] eqn:Ht.
  - apply (f_equal length) in Ht. rewrite length_take in Ht. simpl in Ht. lia.
  - f_equal; f_equal; lia.
Qed.

(** The checksum of [n >= 1] bytes from (0,0), in closed form: the first
    byte of the pair is the sum of the bytes, the second the sum of the
    bytes weighted by their distance from the end (first byte n times, last
    byte once), both modulo 256. *)
Theorem checksum_closed_form (data : list Z) (n : nat) :
  (1 <= n <= length data)%nat -> Z.of_nat n <= 65535 ->
  ubx_update_checksum_multi (0, 0) data (Z.of_nat n)
  = (Brightness.sum (take n data) mod 256, weighted (take n data) mod 256).
Proof. apply checksum_multi_closed. Qed.

Lemma checksum_closed_form_witness :
  ubx_update_checksum_multi (0, 0) [200; 100; 7] 3 = (51, 39).
Proof. apply (checksum_closed_form [200; 100; 7] 3); simpl; lia. Defined.

Lemma sum_insert (l : list Z) (i : nat) (x y : Z) :
  l !! i = Some x -> Brightness.sum (<[i := y]> l) = Brightness.sum l - x + y.
Proof.
  intros Hx.
  rewrite insert_take_drop by (apply lookup_lt_Some in Hx; exact Hx).
  rewrite <- (take_drop_middle l i x Hx) at 3.
  rewrite !sum_app. simpl. lia.
Qed.

(** The checksum detects every change of a single byte: two messages of
    the same length that differ in one byte only have different checksums
    (their first checksum bytes differ). *)
Theorem checksum_detects_single_byte (data : list Z) (i : nat) (x y : Z) :
  data !! i = Some x -> 0 <= x < 256 -> 0 <= y < 256 -> x <> y ->
  Z.of_nat (length data) <= 65535 ->
  let n := Z.of_nat (length data) in
  fst (ubx_update_checksum_multi (0, 0) (<[i := y]> data) n)
  <> fst (ubx_update_checksum_multi (0, 0) data n).
Proof.
  intros Hx Hbx Hby Hne Hmax n. subst n.
  pose proof (lookup_lt_Some _ _ _ Hx) as Hi.
  rewrite <- (length_insert data i y) at 1.
  rewrite !checksum_multi_closed by (rewrite ?length_insert; lia).
  rewrite !firstn_all. cbn [fst].
  rewrite (sum_insert data i x y Hx).
  intros E.
  pose proof (Z.div_mod (Brightness.sum data - x + y) 256 ltac:(lia)) as H1.
  pose proof (Z.div_mod (Brightness.sum data) 256 ltac:(lia)) as H2.
  rewrite E in H1.
  assert (y - x = 256 * ((Brightness.sum data - x + y) / 256 - Brightness.sum data / 256)) by lia.
  lia.
Qed.

Lemma checksum_detects_single_byte_witness :
  fst (ubx_update_checksum_multi (0, 0) [6; 0x31; 9; 0] 4)
  <> fst (ubx_update_checksum_multi (0, 0) [6; 0x31; 7; 0] 4).
Proof.
  apply (checksum_detects_single_byte [6; 0x31; 7; 0] 2 7 9); [reflexivity | lia ..| simpl; lia].
Defined.

End WireProperties.

Section FrameProperties.
Import Uart Ubx.

(** [ubx_send] with any payload a 16-bit length can describe: it only adds
    to what the wire has carried; the frame starts with the sync bytes,
    class and id, and its length field is L whatever L is; the checksum is
    that of class, id, length and all L payload bytes; but the payload bytes
    that go out are the first [L mod 256] only, so that the frame has
    [8 + L mod 256] bytes. *)
Theorem ubx_send_on_wire (tx : list Z) (msgClass msgId : Z) (data : list Z) :
  let L := Z.of_nat (length data) in
  L <= 65535 ->
  exists frame,
    ubx_send tx msgClass msgId data L = tx ++ frame
    /\ Z.of_nat (length frame) = 8 + L mod 256
    /\ take 4 frame = [0xB5; 0x62; msgClass; msgId]
    /\ array_get frame 4 + 256 * array_get frame 5 = L
    /\ take (Z.to_nat (L mod 256)) (drop 6 frame) = take (Z.to_nat (L mod 256)) data
    /\ drop (6 + Z.to_nat (L mod 256)) frame
       = (let c := checksum_fold ([msgClass; msgId; L mod 256; L / 256] ++ data) in
          [fst c; snd c]).
Proof.
  intros L HL.
  pose proof (ubx_send_wire tx msgClass msgId data HL) as Hw. fold L in Hw.
  pose proof (Z.mod_pos_bound L 256 ltac:(lia)) as Hm.
  assert (Hk : length (take (Z.to_nat (L mod 256)) data) = Z.to_nat (L mod 256)).
  { rewrite length_take. pose proof (Z.mod_le L 256 ltac:(lia) ltac:(lia)). lia. }
  eexists. split; [exact Hw|].
  split.
  { cbn [app length]. rewrite length_app, Hk. cbn [length]. lia. }
  split; [reflexivity|]. split.
  { unfold array_get. change (Z.to_nat 4) with 4%nat. change (Z.to_nat 5) with 5%nat.
    cbn. pose proof (Z.div_mod L 256 ltac:(lia)). lia. }
  split.
  - cbn [app drop]. rewrite drop_0.
    rewrite take_app_length' by (symmetry; exact Hk). reflexivity.
  - change (6 + Z.to_nat (L mod 256))%nat
      with (S (S (S (S (S (S (Z.to_nat (L mod 256)))))))).
    cbn [app drop]. rewrite drop_app_length' by (symmetry; exact Hk). reflexivity.
Qed.

Lemma ubx_send_on_wire_witness :
  exists frame,
    ubx_send [0xFF] 0x06 0x24 (repeat 7 300) (Z.of_nat (length (repeat 7 300))) = [0xFF] ++ frame
    /\ Z.of_nat (length frame) = 8 + Z.of_nat (length (repeat 7 300)) mod 256.
Proof.
  destruct (ubx_send_on_wire [0xFF] 0x06 0x24 (repeat 7 300)) as (frame & H1 & H2 & _).
  - rewrite repeat_length. lia.
  - exists frame. split; [exact H1 | exact H2].
Defined.

(** [gps_init], whatever the payload macros expand to at the widths of
    their names: it sends two frames and nothing else, after what the wire
    carried before. The first is the 40-byte time-pulse message; the second
    is the navigation-mode message, class 0x06, id 0x24, with a payload of
    36 bytes and 44 bytes in all; the block that lists the sentences to
    disable sends nothing. *)
Theorem gps_init_sends_two_frames (u8 u16 s16 u32 s32 : Z -> list Z) (tx : list Z) :
  (forall x, length (u8 x) = 1%nat) ->
  (forall x, length (u16 x) = 2%nat) ->
  (forall x, length (s16 x) = 2%nat) ->
  (forall x, length (u32 x) = 4%nat) ->
  (forall x, length (s32 x) = 4%nat) ->
  let tp5 := cfg_tp5_data u8 u16 s16 u32 s32 in
  let nav5 := cfg_nav5_data u8 u16 u32 in
  gps_init u8 u16 s16 u32 s32 tx
  = tx
    ++ ([0xB5; 0x62; 0x06; 0x31; 32; 0] ++ tp5
        ++ (let c := checksum_fold ([0x06; 0x31; 32; 0] ++ tp5) in [fst c; snd c]))
    ++ ([0xB5; 0x62; 0x06; 0x24; 36; 0] ++ nav5
        ++ (let c := checksum_fold ([0x06; 0x24; 36; 0] ++ nav5) in [fst c; snd c]))
  /\ length nav5 = 36%nat
  /\ length (gps_init u8 u16 s16 u32 s32 tx) = (length tx + 40 + 44)%nat.
Proof.
  intros H8 H16 HS16 H32 HS32 tp5 nav5.
  assert (Htp : length tp5 = 32%nat).
  { unfold tp5, cfg_tp5_data. rewrite !length_app.
    rewrite !H8, !H16, !HS16, !H32, !HS32. reflexivity. }
  assert (Hnav : length nav5 = 36%nat).
  { unfold nav5, cfg_nav5_data. rewrite !length_app.
    rewrite !H8, !H16, !H32. reflexivity. }
  assert (Hwire : gps_init u8 u16 s16 u32 s32 tx
    = tx
      ++ ([0xB5; 0x62; 0x06; 0x31; 32; 0] ++ tp5
          ++ (let c := checksum_fold ([0x06; 0x31; 32; 0] ++ tp5) in [fst c; snd c]))
      ++ ([0xB5; 0x62; 0x06; 0x24; 36; 0] ++ nav5
          ++ (let c := checksum_fold ([0x06; 0x24; 36; 0] ++ nav5) in [fst c; snd c]))).
  { unfold gps_init, gps_init_tp5. fold tp5 nav5.
    rewrite (ubx_send_frame tx 0x06 0x31 tp5) by lia.
    rewrite (ubx_send_frame _ 0x06 0x24 nav5) by lia.
    rewrite Htp, Hnav. rewrite <- !app_assoc. reflexivity. }
  split; [exact Hwire|]. split; [exact Hnav|].
  rewrite Hwire. rewrite !length_app. cbn [length]. rewrite Htp, Hnav. lia.
Qed.

Lemma gps_init_sends_two_frames_witness :
  length (gps_init U8 U16 S16 U32 S32 [1; 2; 3]) = 87%nat.
Proof.
  apply (gps_init_sends_two_frames U8 U16 S16 U32 S32 [1; 2; 3]); intros x; reflexivity.
Defined.

End FrameProperties.

(** ** Digits, planes and the display routines *)

Section PlaneProperties.
Import Max7219 Brightness Clock Main.

Ltac planes_by_name planes H :=
  destruct (eight_planes planes H) as (?p & ?p & ?p & ?p & ?p & ?p & ?p & ?p & ->).

(** One plane byte after the loop body, for any mask. *)
Lemma set_plane_testbit_mask (m s p n : Z) :
  0 <= n ->
  Z.testbit (set_plane m s p) n
  = (n <? 8) && (if Z.testbit s 0 then Z.testbit p n || Z.testbit m n
                 else Z.testbit p n && negb (Z.testbit m n)).
Proof.
  intros Hn. unfold set_plane. rewrite segment_bit0.
  destruct (Z.testbit s 0); rewrite uint8_testbit by lia; f_equal.
  - apply Z.lor_spec.
  - rewrite Z.land_spec, Z.lnot_spec by lia. reflexivity.
Qed.

Lemma set_plane_overwrites (m s t p : Z) :
  set_plane m s (set_plane m t p) = set_plane m s p.
Proof.
  apply Z.bits_inj'. intros n Hn. rewrite !set_plane_testbit_mask by lia.
  destruct (n <? 8), (Z.testbit s 0), (Z.testbit t 0), (Z.testbit p n), (Z.testbit m n);
    reflexivity.
Qed.

Lemma set_plane_byte (m s p : Z) : 0 <= set_plane m s p < 256.
Proof. unfold set_plane. destruct (negb _); apply uint8_range. Qed.

(** The read-back of [max7219_set_digit]: the digit set shows the eight
    segment bits it was given, and every other digit of the display shows
    what it showed before. *)
Theorem set_digit_read_back (i j s : Z) (planes : list Z) :
  1 <= i <= 6 -> 1 <= j <= 6 -> i <> j -> length planes = 8%nat -> 0 <= s < 256 ->
  shown_segments (max7219_set_digit i s planes) i = s
  /\ shown_segments (max7219_set_digit i s planes) j = shown_segments planes j.
Proof.
  intros Hi Hj Hne Hlen Hs. split.
  - rewrite shown_segments_set_same by assumption. apply uint8_small, Hs.
  - apply shown_segments_set_other; assumption.
Qed.

Lemma set_digit_read_back_witness :
  shown_segments (max7219_set_digit 4 0x50 [1; 2; 3; 4; 5; 6; 7; 8]) 4 = 0x50
  /\ shown_segments (max7219_set_digit 4 0x50 [1; 2; 3; 4; 5; 6; 7; 8]) 1
     = shown_segments [1; 2; 3; 4; 5; 6; 7; 8] 1.
Proof.
  apply (set_digit_read_back 4 1 0x50 [1; 2; 3; 4; 5; 6; 7; 8]); first [lia | reflexivity].
Defined.

(** [max7219_set_digit] on any of the eight digit registers: the last write
    to a digit wins, the array stays eight bytes long and every plane a
    byte; and as [digitMap] has six initialisers for its eight entries,
    registers 7 and 8 write to the bit of digit 1. *)
Theorem set_digit_overwrites (i s t : Z) (planes : list Z) :
  1 <= i <= 8 -> length planes = 8%nat ->
  max7219_set_digit i s (max7219_set_digit i t planes) = max7219_set_digit i s planes
  /\ length (max7219_set_digit i s planes) = 8%nat
  /\ Forall (fun p => 0 <= p < 256) (max7219_set_digit i s planes)
  /\ (7 <= i -> max7219_set_digit i s planes = max7219_set_digit 1 s planes).
Proof.
  intros Hi Hlen. planes_by_name planes Hlen.
  rewrite !max7219_set_digit_planes.
  split; [|split; [|split]].
  - repeat (apply (f_equal2 cons); [apply set_plane_overwrites|]). reflexivity.
  - reflexivity.
  - repeat (apply Forall_cons; split; [apply set_plane_byte|]). apply Forall_nil. exact I.
  - intros H7. assert (Hc : i = 7 \/ i = 8) by lia. destruct Hc as [-> | ->]; reflexivity.
Qed.

Lemma set_digit_overwrites_witness :
  max7219_set_digit 8 0x7F (max7219_set_digit 8 0x06 [1; 2; 3; 4; 5; 6; 7; 8])
  = max7219_set_digit 8 0x7F [1; 2; 3; 4; 5; 6; 7; 8].
Proof.
  destruct (set_digit_overwrites 8 0x7F 0x06 [1; 2; 3; 4; 5; 6; 7; 8]) as (H & _);
    [lia | reflexivity | exact H].
Defined.

Lemma bcd_pattern_small (v : Z) : 0 <= array_get bcdMap (Z.land v 0xF) < 128.
Proof.
  destruct (low_nibble_cases v) as (m & -> & Hm).
  destruct Hm
    as [->|[->|[->|[->|[->|[->|[->|[->|[->|[->|[->|[->|[->|[->|[->| ->]]]]]]]]]]]]]]];
    vm_compute; split; congruence.
Qed.

Lemma testbit_small (x n k : Z) : 0 <= x < 2 ^ k -> 0 <= k <= n -> Z.testbit x n = false.
Proof.
  intros Hx Hk.
  destruct (Z.eq_dec x 0) as [->|Hnz]; [apply Z.bits_0|].
  apply Z.bits_above_log2; [lia|].
  assert (Z.log2 x < k) by (apply Z.log2_lt_pow2; lia). lia.
Qed.

Lemma set_digit_bcd_ignores_middle_bits_aux (v : Z) :
  0 <= bcd_segments v < 256 /\ Z.testbit (bcd_segments v) 7 = Z.testbit v 7.
Proof.
  split; [apply uint8_range|].
  unfold bcd_segments. rewrite uint8_testbit by lia.
  rewrite Z.lor_spec, Z.land_spec.
  rewrite (testbit_small _ 7 7 (bcd_pattern_small v)) by lia.
  change (Z.testbit 0x80 7) with true. cbn [andb orb]. apply andb_true_r.
Qed.

(** Of the value given to [max7219_set_digit_bcd] only the low four bits
    and bit 7 count: bits 4 to 6 are ignored. The segment byte written is a
    byte whose decimal-point bit is bit 7 of the value. *)
Theorem set_digit_bcd_ignores_middle_bits (i v : Z) (planes : list Z) :
  max7219_set_digit_bcd i v planes = max7219_set_digit_bcd i (Z.land v 0x8F) planes
  /\ 0 <= bcd_segments v < 256
  /\ Z.testbit (bcd_segments v) 7 = Z.testbit v 7.
Proof.
  split; [|apply set_digit_bcd_ignores_middle_bits_aux].
  unfold max7219_set_digit_bcd, bcd_segments.
  rewrite <- !Z.land_assoc. reflexivity.
Qed.

Lemma bcd_segments_digit (d : Z) :
  0 <= d <= 9 ->
  bcd_segments d = array_get [0x3F; 0x06; 0x5B; 0x4F; 0x66; 0x6D; 0x7D; 0x07; 0x7F; 0x6F] d.
Proof.
  intros Hd.
  assert (Hc : d = 0 \/ d = 1 \/ d = 2 \/ d = 3 \/ d = 4 \/ d = 5 \/ d = 6 \/ d = 7
               \/ d = 8 \/ d = 9) by lia.
  destruct Hc as [->|[->|[->|[->|[->|[->|[->|[->|[->| ->]]]]]]]]]; reflexivity.
Qed.

(** What the six digits show after six calls of [max7219_set_digit_bcd],
    one on each digit in turn. *)
Lemma shown_after_six_digits (v1 v2 v3 v4 v5 v6 : Z) (planes : list Z) :
  length planes = 8%nat ->
  map (shown_segments
         (max7219_set_digit_bcd 6 v6 (max7219_set_digit_bcd 5 v5 (max7219_set_digit_bcd 4 v4
            (max7219_set_digit_bcd 3 v3 (max7219_set_digit_bcd 2 v2
               (max7219_set_digit_bcd 1 v1 planes)))))))
      [1; 2; 3; 4; 5; 6]
  = map bcd_segments [v1; v2; v3; v4; v5; v6].
Proof.
  intros Hlen. cbn [map].
  repeat (apply (f_equal2 cons); [
    repeat (rewrite shown_segments_bcd_other
              by (repeat apply length_max7219_set_digit_bcd; first [exact Hlen | lia]));
    rewrite shown_segments_bcd_same
      by (repeat apply length_max7219_set_digit_bcd; first [exact Hlen | lia]);
    reflexivity |]).
  reflexivity.
Qed.

(** [display_update] on any time of day whose hour, minute and second are
    below 100: whatever the display showed, its six digits then show the
    tens and ones of hour, minute and second as decimal digits, and no
    decimal point is lit. *)
Theorem display_update_shows_time (now : DateTime) (planes : list Z) :
  0 <= hour now < 100 -> 0 <= minute now < 100 -> 0 <= second now < 100 ->
  length planes = 8%nat ->
  let planes' := display_update_loop 3 0 1 now planes in
  map (shown_segments planes') [1; 2; 3; 4; 5; 6]
  = map (array_get [0x3F; 0x06; 0x5B; 0x4F; 0x66; 0x6D; 0x7D; 0x07; 0x7F; 0x6F])
      [hour now / 10; hour now mod 10; minute now / 10; minute now mod 10;
       second now / 10; second now mod 10]
  /\ Forall (fun i => Z.testbit (shown_segments planes' i) 7 = false) [1; 2; 3; 4; 5; 6].
Proof.
  intros Hh Hm Hs Hlen planes'.
  destruct (display_update_loop_digits now planes) as [Hp _]; [lia ..|].
  fold planes' in Hp.
  assert (Hshown : map (shown_segments planes') [1; 2; 3; 4; 5; 6]
                   = map bcd_segments
                       [hour now / 10; hour now mod 10; minute now / 10; minute now mod 10;
                        second now / 10; second now mod 10]).
  { rewrite Hp. apply shown_after_six_digits, Hlen. }
  assert (Hdigit : forall x, 0 <= x < 100 -> 0 <= x / 10 <= 9 /\ 0 <= x mod 10 <= 9).
  { intros x Hx. pose proof (Z.mod_pos_bound x 10 ltac:(lia)).
    assert (0 <= x / 10) by (apply Z.div_pos; lia).
    assert (x / 10 < 10) by (apply Z.div_lt_upper_bound; lia). lia. }
  destruct (Hdigit _ Hh) as [Hh1 Hh2]. destruct (Hdigit _ Hm) as [Hm1 Hm2].
  destruct (Hdigit _ Hs) as [Hs1 Hs2].
  split.
  - rewrite Hshown. cbn [map]. rewrite !bcd_segments_digit by assumption. reflexivity.
  - cbn [map] in Hshown.
    injection Hshown as E1 E2 E3 E4 E5 E6.
    assert (Hdp : forall v, Z.testbit v 7 = false -> Z.testbit (bcd_segments v) 7 = false).
    { intros v Hv. destruct (set_digit_bcd_ignores_middle_bits_aux v) as [_ ->]. exact Hv. }
    assert (Hlow : forall v, 0 <= v <= 9 -> Z.testbit v 7 = false).
    { intros v Hv. apply (testbit_small v 7 4); [change (2 ^ 4) with 16|]; lia. }
    repeat (apply Forall_cons; split;
            [cbv beta;
             first [rewrite E1 | rewrite E2 | rewrite E3 | rewrite E4 | rewrite E5 | rewrite E6];
             apply Hdp, Hlow; assumption|]).
    apply Forall_nil. exact I.
Qed.

Lemma display_update_shows_time_witness :
  map (shown_segments
         (display_update_loop 3 0 1
            {| hour := 23; minute := 59; second := 7; day := 31; month := 12; year := 99 |}
            [0xFF; 0xFF; 0xFF; 0xFF; 0xFF; 0xFF; 0xFF; 0xFF]))
      [1; 2; 3; 4; 5; 6]
  = [0x5B; 0x4F; 0x6D; 0x6F; 0x3F; 0x07].
Proof.
  apply (display_update_shows_time
           {| hour := 23; minute := 59; second := 7; day := 31; month := 12; year := 99 |}
           [0xFF; 0xFF; 0xFF; 0xFF; 0xFF; 0xFF; 0xFF; 0xFF]);
    first [reflexivity | cbn [hour minute second]; lia].
Defined.

End PlaneProperties.

(** ** The display routines run to their end *)

Section RoutineProperties.
Import Max7219 Brightness Clock Main.

Lemma run_app (es1 es2 : list event) (m : machine) :
  run (es1 ++ es2) m = match run es1 m with
                       | Some m1 => run es2 m1
                       | None => None
                       end.
Proof.
  revert m. induction es1 as [|e es1 IH]; intros m; [reflexivity|].
  cbn [app run]. destruct (step e m); [apply IH | reflexivity].
Qed.

(** Steps that compute on RAM: the bus and the mask stay as they are. *)
Lemma run_rams (fs : list (memory -> memory)) :
  forall (m : machine) (rest : list instr),
    code m = map ram fs ++ rest ->
    run (repeat Step (length fs)) m
    = Some {| mem := fold_left (fun x f => f x) fs (mem m); statics := statics m;
              interrupts := interrupts m; bus := bus m; code := rest |}.
Proof.
  induction fs as [|f fs IH]; intros m rest Hcode.
  - destruct m as [a b c d e]. cbn in *. rewrite Hcode. reflexivity.
  - cbn [length repeat run step]. rewrite Hcode. cbn [map app].
    rewrite (IH _ rest) by reflexivity. reflexivity.
Qed.

(** A flush with nothing on the bus before it. *)
Lemma run_flush (mem0 : memory) (w : window) (ie : bool) :
  run (repeat Step 8)
      {| mem := mem0; statics := w; interrupts := ie; bus := []; code := max7219_write_digits |}
  = Some {| mem := mem0; statics := w; interrupts := ie;
            bus := map (pair MainLoop) (flush_of (_segmentWiseData mem0)); code := [] |}.
Proof. reflexivity. Qed.

(** Computations on RAM, then a flush, with no interrupt in between. *)
Lemma call_unguarded_flush (fs : list (memory -> memory)) (mem0 : memory) (w : window) (ie : bool) :
  call (map ram fs ++ max7219_write_digits) mem0 w ie
  = Some {| mem := fold_left (fun x f => f x) fs mem0; statics := w; interrupts := ie;
            bus := map (pair MainLoop)
                     (flush_of (_segmentWiseData (fold_left (fun x f => f x) fs mem0)));
            code := [] |}.
Proof.
  unfold call. rewrite length_app, length_map.
  change (length max7219_write_digits) with 8%nat.
  rewrite repeat_app, run_app.
  rewrite (run_rams fs (start (map ram fs ++ max7219_write_digits) mem0 w ie)
             max7219_write_digits eq_refl).
  cbn [start mem statics interrupts bus]. apply run_flush.
Qed.

Lemma display_clear_planes (p0 p1 p2 p3 p4 p5 p6 p7 : Z) :
  display_clear [p0; p1; p2; p3; p4; p5; p6; p7] = [0; 0; 0; 0; 0; 0; 0; 0].
Proof. reflexivity. Qed.

Lemma display_clear_zero (planes : list Z) :
  length planes = 8%nat ->
  display_clear planes = [0; 0; 0; 0; 0; 0; 0; 0]
  /\ forall i, shown_segments (display_clear planes) i = 0.
Proof.
  intros Hlen.
  destruct (eight_planes planes Hlen) as (p0 & p1 & p2 & p3 & p4 & p5 & p6 & p7 & ->).
  rewrite display_clear_planes. split; [reflexivity|].
  intros i. unfold shown_segments. cbn [fold_right]. rewrite !Z.bits_0. reflexivity.
Qed.

(** [display_clear] zeroes the eight planes, so that every digit shows no
    segment, and a flush after it sends a zero byte to each of the eight
    plane registers, 1 to 8 in order; the flush itself changes neither the
    planes nor the interrupt mask. *)
Theorem display_clear_blanks (planes : list Z) (wi : Z) (w : window) (ie : bool) :
  length planes = 8%nat ->
  display_clear planes = [0; 0; 0; 0; 0; 0; 0; 0]
  /\ (forall i, shown_segments (display_clear planes) i = 0)
  /\ call ([ram (on_planes display_clear)] ++ max7219_write_digits)
          {| _segmentWiseData := planes; waitIndicator := wi |} w ie
     = Some {| mem := {| _segmentWiseData := [0; 0; 0; 0; 0; 0; 0; 0]; waitIndicator := wi |};
               statics := w; interrupts := ie;
               bus := map (fun k => (MainLoop, (k, 0))) [1; 2; 3; 4; 5; 6; 7; 8];
               code := [] |}.
Proof.
  intros Hlen.
  destruct (eight_planes planes Hlen) as (p0 & p1 & p2 & p3 & p4 & p5 & p6 & p7 & ->).
  rewrite display_clear_planes.
  split; [reflexivity|]. split.
  - intros i. unfold shown_segments. cbn [fold_right]. rewrite !Z.bits_0. reflexivity.
  - change [ram (on_planes display_clear)] with (map ram [on_planes display_clear]).
    rewrite call_unguarded_flush. reflexivity.
Qed.

Lemma display_clear_blanks_witness :
  display_clear [1; 2; 3; 4; 5; 6; 7; 8] = [0; 0; 0; 0; 0; 0; 0; 0].
Proof. apply (display_clear_blanks [1; 2; 3; 4; 5; 6; 7; 8] 0 window_init true). reflexivity. Defined.

(** [display_no_signal], run to its end with the indicator at 0..5: whatever
    the display showed, only the decimal point of digit [waitIndicator + 1]
    is lit afterwards (plane 8 holds that digit's bit, the seven segment
    planes are zero), these planes are what the flush sent, the indicator
    has moved on by one, back to 0 after 5, and the interrupt mask is as it
    was. *)
Theorem display_no_signal_walks_point (planes : list Z) (wi : Z) (w : window) (ie : bool) :
  length planes = 8%nat -> 0 <= wi < 6 ->
  let planes' := [0; 0; 0; 0; 0; 0; 0; 2 ^ mappedDigit (wi + 1)] in
  call display_no_signal {| _segmentWiseData := planes; waitIndicator := wi |} w ie
  = Some {| mem := {| _segmentWiseData := planes'; waitIndicator := (wi + 1) mod 6 |};
            statics := w; interrupts := ie;
            bus := map (pair MainLoop) (flush_of planes'); code := [] |}
  /\ (forall j, 1 <= j <= 6 ->
        shown_segments planes' j = if j =? wi + 1 then 0x80 else 0).
Proof.
  intros Hlen Hwi planes'.
  destruct (eight_planes planes Hlen) as (p0 & p1 & p2 & p3 & p4 & p5 & p6 & p7 & ->).
  assert (Hc : wi = 0 \/ wi = 1 \/ wi = 2 \/ wi = 3 \/ wi = 4 \/ wi = 5) by lia.
  split.
  - unfold display_no_signal.
    match goal with
    | |- call ([ram ?f1; ram ?f2; ram ?f3] ++ _) _ _ _ = _ =>
        change [ram f1; ram f2; ram f3] with (map ram [f1; f2; f3])
    end.
    rewrite call_unguarded_flush.
    cbn [fold_left on_planes _segmentWiseData waitIndicator].
    rewrite display_clear_planes. subst planes'.
    destruct Hc as [->|[->|[->|[->|[->| ->]]]]]; reflexivity.
  - intros j Hj.
    assert (Hcj : j = 1 \/ j = 2 \/ j = 3 \/ j = 4 \/ j = 5 \/ j = 6) by lia.
    subst planes'.
    destruct Hc as [->|[->|[->|[->|[->| ->]]]]];
      destruct Hcj as [->|[->|[->|[->|[->| ->]]]]]; reflexivity.
Qed.

Lemma display_no_signal_walks_point_witness :
  shown_segments [0; 0; 0; 0; 0; 0; 0; 2 ^ mappedDigit (5 + 1)] 6 = 0x80
  /\ shown_segments [0; 0; 0; 0; 0; 0; 0; 2 ^ mappedDigit (5 + 1)] 1 = 0.
Proof.
  destruct (display_no_signal_walks_point [1; 2; 3; 4; 5; 6; 7; 8] 5 window_init true)
    as [_ H]; [reflexivity | lia |].
  split; [apply (H 6); lia | apply (H 1); lia].
Defined.

(** [display_error_code], run to its end: whatever the display showed, it
    then shows E on digit 1, r on digit 2, the pattern of the code on
    digit 3 and nothing on digits 4 to 6; the flush sends these planes, and
    neither the indicator of [display_no_signal] nor the interrupt mask is
    touched. *)
Theorem display_error_code_shows
        (code0 : Z) (planes : list Z) (wi : Z) (w : window) (ie : bool) :
  length planes = 8%nat ->
  let planes' := max7219_set_digit_bcd 3 code0
                   (max7219_set_digit 2 0x50
                      (max7219_set_digit_bcd 1 11 (display_clear planes))) in
  call (display_error_code code0) {| _segmentWiseData := planes; waitIndicator := wi |} w ie
  = Some {| mem := {| _segmentWiseData := planes'; waitIndicator := wi |};
            statics := w; interrupts := ie;
            bus := map (pair MainLoop) (flush_of planes'); code := [] |}
  /\ map (shown_segments planes') [1; 2; 3; 4; 5; 6]
     = [0x79; 0x50; bcd_segments code0; 0; 0; 0].
Proof.
  intros Hlen planes'. split.
  - unfold display_error_code.
    match goal with
    | |- call ([ram ?f1; ram ?f2; ram ?f3; ram ?f4] ++ _) _ _ _ = _ =>
        change [ram f1; ram f2; ram f3; ram f4] with (map ram [f1; f2; f3; f4])
    end.
    rewrite call_unguarded_flush. reflexivity.
  - assert (Hclear : length (display_clear planes) = 8%nat).
    { destruct (display_clear_zero planes Hlen) as [-> _]. reflexivity. }
    assert (Hblank : forall i, shown_segments (display_clear planes) i = 0)
      by apply (display_clear_zero planes Hlen).
    subst planes'. cbn [map].
    assert (H1 : length (max7219_set_digit_bcd 1 11 (display_clear planes)) = 8%nat)
      by (apply length_max7219_set_digit_bcd, Hclear).
    assert (H2 : length (max7219_set_digit 2 0x50
                           (max7219_set_digit_bcd 1 11 (display_clear planes))) = 8%nat)
      by (apply length_max7219_set_digit, H1).
    repeat (apply (f_equal2 cons); [
      repeat first [ rewrite shown_segments_bcd_other by first [assumption | lia]
                   | rewrite shown_segments_set_other by first [assumption | lia] ];
      first [ rewrite shown_segments_bcd_same by first [assumption | lia]
            | rewrite shown_segments_set_same by first [assumption | lia]
            | rewrite Hblank ];
      reflexivity |]).
    reflexivity.
Qed.

Lemma display_error_code_shows_witness :
  map (shown_segments
         (max7219_set_digit_bcd 3 2
            (max7219_set_digit 2 0x50
               (max7219_set_digit_bcd 1 11 (display_clear [9; 9; 9; 9; 9; 9; 9; 9])))))
      [1; 2; 3; 4; 5; 6]
  = [0x79; 0x50; bcd_segments 2; 0; 0; 0].
Proof.
  apply (display_error_code_shows 2 [9; 9; 9; 9; 9; 9; 9; 9] 0 window_init true). reflexivity.
Defined.

End RoutineProperties.

(** ** Main context and interrupt, taken apart *)

Section InterleavingProperties.
Import Max7219 Brightness Clock Main.


Lemma filter_none {A : Type} (f : A -> bool) (l : list A) :
  forallb (fun x => negb (f x)) l = true -> List.filter f l = [].
Proof.
  induction l as [|x l IH]; intros H; [reflexivity|].
  cbn [forallb] in H. apply andb_prop in H. destruct H as [Hx Hl].
  cbn [List.filter]. destruct (f x); [discriminate Hx | apply IH, Hl].
Qed.





Lemma adjust_all_bus (adcs : list ADC1) :
  forall (w : window) (b : list bus_cmd),
    adjust_all adcs w b = (fst (adjust_all adcs w []), b ++ snd (adjust_all adcs w [])).
Proof.
  induction adcs as [|adc rest IH]; intros w b.
  - cbn. rewrite app_nil_r. reflexivity.
  - cbn [adjust_all]. unfold display_adjust_brightness, max7219_cmd.
    rewrite IH. rewrite (IH _ ([] ++ _)). cbn [fst snd app].
    rewrite <- app_assoc. reflexivity.
Qed.




End InterleavingProperties.

(** ** One turn of the main loop *)

Section MainLoopProperties.
Import Max7219 Brightness Clock Main.

Lemma int8_small (x : Z) : -128 <= x < 128 -> int8 x = x.
Proof. intros H. unfold int8. rewrite Z.mod_small by lia. lia. Qed.

(** [apply_timezone_offset] for any offset of at most a day either way, on
    an hour of the day: the new hour is the old one plus the offset, modulo
    24; no other field changes, the date included, even when the hour goes
    past midnight. With the offset the firmware starts with, this is
    [apply_timezone_offset]. *)
Theorem apply_timezone_offset_any_zone (offset : Z) (now : DateTime) :
  -24 <= offset <= 24 -> 0 <= hour now < 24 ->
  let now' := apply_timezone_offset_by offset now in
  hour now' = (hour now + offset) mod 24
  /\ now' = {| hour := (hour now + offset) mod 24; minute := minute now; second := second now;
               day := day now; month := month now; year := year now |}
  /\ apply_timezone_offset now = apply_timezone_offset_by _timezoneOffset now.
Proof.
  intros Ho Hh now'.
  assert (Hhour : hour now' = (hour now + offset) mod 24).
  { subst now'. unfold apply_timezone_offset_by. cbn [hour].
    rewrite (int8_small (hour now)) by lia.
    rewrite (int8_small (hour now + offset)) by lia.
    destruct (Z.ltb_spec 23 (hour now + offset)).
    - rewrite int8_small by lia. rewrite uint8_small by lia.
      replace (hour now + offset) with ((hour now + offset - 24) + 1 * 24) at 2 by lia.
      rewrite Z.mod_add by lia. rewrite Z.mod_small by lia. reflexivity.
    - destruct (Z.ltb_spec (hour now + offset) 0).
      + rewrite int8_small by lia. rewrite uint8_small by lia.
        replace (hour now + offset) with ((hour now + offset + 24) + (-1) * 24) at 2 by lia.
        rewrite Z.mod_add by lia. rewrite Z.mod_small by lia. reflexivity.
      + rewrite uint8_small by lia. rewrite Z.mod_small by lia. reflexivity. }
  split; [exact Hhour|]. split; [|reflexivity].
  rewrite <- Hhour. reflexivity.
Qed.

Lemma apply_timezone_offset_any_zone_witness :
  hour (apply_timezone_offset_by (-11)
          {| hour := 3; minute := 15; second := 0; day := 1; month := 1; year := 26 |})
  = 16.
Proof.
  apply (apply_timezone_offset_any_zone (-11)
           {| hour := 3; minute := 15; second := 0; day := 1; month := 1; year := 26 |});
    cbn [hour]; lia.
Defined.






End MainLoopProperties.

(** ** More on the brightness controller *)

Section BrightnessProperties.
Import Max7219 Brightness.

Lemma lor_high_byte (lo hi : Z) :
  0 <= lo < 256 -> 0 <= hi -> Z.lor lo (Z.shiftl hi 8) = lo + 256 * hi.
Proof.
  intros Hlo Hhi.
  assert (Hdisjoint : Z.land lo (Z.shiftl hi 8) = 0).
  { apply Z.bits_inj'. intros n Hn. rewrite Z.land_spec, Z.bits_0.
    destruct (Z.ltb_spec n 8).
    - rewrite Z.shiftl_spec_low by lia. apply andb_false_r.
    - rewrite (testbit_small lo n 8) by (change (2 ^ 8) with 256; lia). reflexivity. }
  rewrite <- Z.lxor_lor by exact Hdisjoint.
  rewrite <- Z.add_nocarry_lxor by exact Hdisjoint.
  rewrite Z.shiftl_mul_pow2 by lia. change (2 ^ 8) with 256. lia.
Qed.

(** [read_adc_buffer] puts the two 8-bit data registers together as one
    16-bit reading, the low register the low byte; for a right-aligned
    10-bit result this is a value below 1024. *)
Theorem read_adc_buffer_combines (adc : ADC1) :
  0 <= DRL adc < 256 -> 0 <= DRH adc < 256 ->
  read_adc_buffer adc = DRL adc + 256 * DRH adc
  /\ 0 <= read_adc_buffer adc < 65536
  /\ (DRH adc < 4 -> read_adc_buffer adc < 1024).
Proof.
  intros Hl Hh. unfold read_adc_buffer.
  rewrite (uint16_small (DRL adc)) by lia.
  rewrite lor_high_byte by lia. rewrite uint16_small by lia.
  repeat split; lia.
Qed.

Lemma read_adc_buffer_combines_witness : read_adc_buffer (Adc 0x34 0x02) = 0x234.
Proof. apply (read_adc_buffer_combines (Adc 0x34 0x02)); cbn [DRL DRH]; lia. Defined.

(** The ring never leaves its array: after any conversions, 10-bit or not,
    the buffer still has sixteen entries, the write index is the number of
    conversions modulo 16, and one command per conversion is on the bus. *)
Lemma adjust_all_ring (adcs : list ADC1) :
  forall (w : window) (b : list bus_cmd),
    length (averageBuffer w) = 16%nat -> 0 <= writeIndex w < 16 ->
    let w' := fst (adjust_all adcs w b) in
    length (averageBuffer w') = 16%nat
    /\ writeIndex w' = (writeIndex w + Z.of_nat (length adcs)) mod 16
    /\ length (snd (adjust_all adcs w b)) = (length b + length adcs)%nat.
Proof.
  induction adcs as [|adc rest IH]; intros w b Hlen Hidx.
  - cbn [adjust_all fst snd length Z.of_nat]. rewrite Z.add_0_r, Z.mod_small by lia.
    repeat split; [exact Hlen | lia].
  - cbn [adjust_all]. unfold display_adjust_brightness.
    match goal with
    | |- context [adjust_all rest ?w1 ?b1] => specialize (IH w1 b1)
    end.
    cbn [averageBuffer writeIndex] in IH.
    assert (Hi : uint8 ((writeIndex w + 1) mod COUNT_OF_averageBuffer) = (writeIndex w + 1) mod 16).
    { unfold COUNT_OF_averageBuffer. apply uint8_small.
      pose proof (Z.mod_pos_bound (writeIndex w + 1) 16 ltac:(lia)). lia. }
    rewrite Hi in IH.
    destruct IH as (H1 & H2 & H3).
    + unfold array_set. rewrite length_insert. exact Hlen.
    + apply Z.mod_pos_bound. lia.
    + cbv zeta. rewrite Hi. split; [exact H1|]. split.
      * rewrite H2. rewrite Zplus_mod_idemp_l. f_equal. cbn [length]. lia.
      * rewrite H3. unfold max7219_cmd. rewrite length_app. cbn [length]. lia.
Qed.

Theorem brightness_ring_in_bounds (adcs : list ADC1) :
  let w := fst (adjust_all adcs window_init []) in
  length (averageBuffer w) = 16%nat
  /\ 0 <= writeIndex w < 16
  /\ writeIndex w = Z.of_nat (length adcs) mod 16
  /\ length (snd (adjust_all adcs window_init [])) = length adcs.
Proof.
  intros w.
  destruct (adjust_all_ring adcs window_init []) as (H1 & H2 & H3); [reflexivity | cbn; lia |].
  fold w in H1, H2. cbn [writeIndex window_init Z.add length Nat.add] in H2, H3.
  split; [exact H1|]. split; [rewrite H2; apply Z.mod_pos_bound; lia|].
  split; [exact H2 | exact H3].
Qed.

Lemma sum_between (lo hi : Z) (l : list Z) :
  Forall (fun v => lo <= v <= hi) l ->
  lo * Z.of_nat (length l) <= sum l <= hi * Z.of_nat (length l).
Proof.
  induction 1 as [|x l Hx _ IH]; [cbn; lia|].
  change (sum (x :: l)) with (x + sum l). cbn [length]. lia.
Qed.

Lemma adjust_all_app (l1 l2 : list ADC1) :
  forall (w : window) (b : list bus_cmd),
    adjust_all (l1 ++ l2) w b
    = adjust_all l2 (fst (adjust_all l1 w b)) (snd (adjust_all l1 w b)).
Proof.
  induction l1 as [|adc l1 IH]; intros w b; [reflexivity|].
  cbn [app adjust_all]. destruct (display_adjust_brightness adc w b). apply IH.
Qed.

(** Every intensity command of the controller is in the range of the
    display driver: with 10-bit conversions, each command on the bus is
    to register 0x0A with a value from 0 to 15. *)
Lemma adjust_all_commands (adcs : list ADC1) :
  forall w : window,
    window_ok w -> Forall ten_bit adcs ->
    Forall (fun c : bus_cmd => fst c = 0x0A /\ 0 <= snd c <= 15) (snd (adjust_all adcs w [])).
Proof.
  induction adcs as [|adc rest IH]; intros w Hw Hall; [apply Forall_nil; exact I|].
  apply Forall_cons in Hall. destruct Hall as [Hadc Hrest].
  destruct (display_adjust_brightness_step adc w [] Hw Hadc) as (Hw' & _ & Havg & Hbus).
  cbn [adjust_all].
  destruct (display_adjust_brightness adc w []) as [w' bus'] eqn:Hstep.
  cbn [fst snd] in Hw', Havg, Hbus.
  rewrite adjust_all_bus. cbn [snd]. rewrite Hbus. cbn [app].
  apply Forall_cons. split; [|apply IH; assumption].
  cbn [fst snd]. split; [reflexivity|].
  destruct Hw' as (Hlen & _ & Hsamples & _).
  pose proof (sum_bound _ Hsamples) as Hb. rewrite Hlen in Hb.
  rewrite Havg.
  assert (0 <= sum (averageBuffer w') / 16 < 1024).
  { split; [apply Z.div_pos; lia | apply Z.div_lt_upper_bound; lia]. }
  split; [apply Z.div_pos; lia|].
  assert (sum (averageBuffer w') / 16 / 64 < 16) by (apply Z.div_lt_upper_bound; lia). lia.
Qed.

Theorem brightness_commands_in_range (adcs : list ADC1) :
  Forall ten_bit adcs ->
  Forall (fun c : bus_cmd => fst c = 0x0A /\ 0 <= snd c <= 15)
         (snd (adjust_all adcs window_init [])).
Proof. apply adjust_all_commands, window_init_ok. Qed.

Lemma brightness_commands_in_range_witness :
  Forall (fun c : bus_cmd => fst c = 0x0A /\ 0 <= snd c <= 15)
         (snd (adjust_all (repeat (Adc 0xFF 3) 40) window_init [])).
Proof.
  apply (brightness_commands_in_range (repeat (Adc 0xFF 3) 40)).
  apply List.Forall_forall. intros a Ha. apply repeat_spec in Ha. subst a.
  unfold ten_bit. cbn [DRL DRH]. lia.
Defined.

(** The average follows the light: once sixteen or more 10-bit conversions
    have been taken, the average lies between the smallest and the largest
    of the sixteen most recent readings, and the last command on the bus
    carries its sixty-fourth. In steady light (sixteen equal readings v) the
    average is v and the intensity v / 64. *)
Theorem brightness_average_between (adcs : list ADC1) (adc : ADC1) (lo hi : Z) :
  Forall ten_bit (adcs ++ [adc]) ->
  (16 <= length (adcs ++ [adc]))%nat ->
  Forall (fun v => lo <= v <= hi)
         (drop (length (adcs ++ [adc]) - 16) (map read_adc_buffer (adcs ++ [adc]))) ->
  let w := fst (adjust_all (adcs ++ [adc]) window_init []) in
  lo <= average w <= hi
  /\ last (snd (adjust_all (adcs ++ [adc]) window_init [])) = Some (0x0A, average w / 64)
  /\ lo / 64 <= average w / 64 <= hi / 64.
Proof.
  intros Hall Hn Hrange w.
  destruct (adjust_all_window (adcs ++ [adc]) window_init [] window_init_ok Hall)
    as (Hok & Hslide & _).
  fold w in Hok, Hslide.
  change (chronological window_init) with (repeat 0 16 ++ []) in Hslide.
  rewrite app_nil_r in Hslide.
  rewrite drop_app_ge in Hslide by (rewrite repeat_length; lia).
  rewrite repeat_length in Hslide.
  assert (Havg : average w = sum (chronological w) / 16).
  { rewrite (average_ok w Hok), sum_chronological. reflexivity. }
  assert (Hlen : length (chronological w) = 16%nat).
  { rewrite length_chronological. apply Hok. }
  rewrite <- Hslide in Hrange.
  pose proof (sum_between lo hi _ Hrange) as Hb. rewrite Hlen in Hb.
  assert (Hbetween : lo <= average w <= hi).
  { rewrite Havg. split.
    - apply Z.div_le_lower_bound; lia.
    - assert (sum (chronological w) / 16 < hi + 1) by (apply Z.div_lt_upper_bound; lia). lia. }
  split; [exact Hbetween|]. split.
  - apply Forall_app in Hall. destruct Hall as [Hfirst Hlast].
    apply Forall_cons in Hlast. destruct Hlast as [Hadc _].
    destruct (adjust_all_window adcs window_init [] window_init_ok Hfirst) as (Hok0 & _ & _).
    subst w. rewrite adjust_all_app. cbn [adjust_all].
    destruct (display_adjust_brightness_step adc (fst (adjust_all adcs window_init []))
                (snd (adjust_all adcs window_init [])) Hok0 Hadc) as (_ & _ & _ & Hbus).
    destruct (display_adjust_brightness adc (fst (adjust_all adcs window_init []))
                (snd (adjust_all adcs window_init []))) as [w1 b1].
    cbn [fst snd] in *. rewrite Hbus. apply last_snoc.
  - split; apply Z.div_le_mono; lia.
Qed.

Lemma brightness_average_between_witness :
  let adcs := repeat (Adc 0x20 3) 3 ++ repeat (Adc 0x90 1) 15 in
  average (fst (adjust_all (adcs ++ [Adc 0x90 1]) window_init [])) / 64 = 400 / 64.
Proof.
  intros adcs.
  assert (Hall : Forall ten_bit (adcs ++ [Adc 0x90 1])).
  { apply List.Forall_forall. intros a Ha. unfold ten_bit.
    repeat (apply in_app_or in Ha; destruct Ha as [Ha|Ha]);
      [apply repeat_spec in Ha | apply repeat_spec in Ha | destruct Ha as [Ha|[]]];
      subst a; cbn [DRL DRH]; lia. }
  destruct (brightness_average_between adcs (Adc 0x90 1) 400 400 Hall) as (_ & _ & H).
  - vm_compute. lia.
  - vm_compute. repeat constructor; discriminate.
  - lia.
Defined.

End BrightnessProperties.
